(** * openclaw-feishu: the Feishu/Lark channel adapter

    A shallow embedding of the message-receive provider
    (connection-mode selection, webhook error handling, the inbound filters
    and the "thinking" placeholder state machine of [handleIncomingMessage])
    together with the shared domain resolver of [lark-domain.ts]. *)

From Stdlib Require Import NArith ZArith String Ascii DecimalString.
From stdpp Require Import base decidable option list gmap.

Local Open Scope N_scope.

(** ** JavaScript strings

    A JavaScript string is a sequence of UTF-16 code units.  Literals of the
    source that are plain ASCII are written with [u16]. *)

Module JS.

Abbreviation jsstring := (list N).

Fixpoint u16 (s : string) : jsstring :=
  match s with
  | EmptyString => []
  | String a s' => N_of_ascii a :: u16 s'
  end.

(** ECMAScript WhiteSpace and LineTerminator code units: what
    [String.prototype.trim] strips and what the regular expression class
    [\s] matches. *)
Definition isWhiteSpace (c : N) : bool :=
  (c =? 0x09) || (c =? 0x0A) || (c =? 0x0B) || (c =? 0x0C) || (c =? 0x0D)
  || (c =? 0x20) || (c =? 0xA0) || (c =? 0x1680)
  || ((0x2000 <=? c) && (c <=? 0x200A))
  || (c =? 0x2028) || (c =? 0x2029) || (c =? 0x202F) || (c =? 0x205F)
  || (c =? 0x3000) || (c =? 0xFEFF).

Definition isDigit (c : N) : bool := (0x30 <=? c) && (c <=? 0x39).

Fixpoint trimStart (s : jsstring) : jsstring :=
  match s with
  | [] => []
  | c :: s' => if isWhiteSpace c then trimStart s' else s
  end.

Definition trimEnd (s : jsstring) : jsstring := rev (trimStart (rev s)).

(** [s.trim()] *)
Definition trim (s : jsstring) : jsstring := trimEnd (trimStart s).

(** [s.startsWith(p)] *)
Fixpoint startsWith (s p : jsstring) : bool :=
  match p, s with
  | [], _ => true
  | _ :: _, [] => false
  | a :: p', b :: s' => (a =? b) && startsWith s' p'
  end.

(** [s.endsWith(p)] *)
Definition endsWith (s p : jsstring) : bool := startsWith (rev s) (rev p).

(** [a === b] on strings. *)
Definition streq (a b : jsstring) : bool := bool_decide (a = b).

(** Truthiness of a string: the empty string is falsy. *)
Definition truthy (s : jsstring) : bool :=
  match s with [] => false | _ :: _ => true end.

(** Truthiness of a value that is a string or [undefined]. *)
Definition truthyOpt (s : option jsstring) : bool :=
  match s with Some t => truthy t | None => false end.

(** [s.slice(0, n)] *)
Definition slice0 (n : nat) (s : jsstring) : jsstring := take n s.

(** Length of the longest prefix whose code units satisfy [f]. *)
Fixpoint spanLength (f : N -> bool) (s : jsstring) : nat :=
  match s with
  | c :: s' => if f c then S (spanLength f s') else O
  | [] => O
  end.

(** Length of the match of [/@_user_\d+\s*/] anchored at the head of [s],
    if there is one.  Both quantifiers are greedy and the classes are
    disjoint, so no backtracking can change the match. *)
Definition mentionMatch (s : jsstring) : option nat :=
  let tag := u16 "@_user_" in
  if startsWith s tag then
    let rest := drop (length tag) s in
    let d := spanLength isDigit rest in
    match d with
    | O => None
    | S _ => Some (length tag + d + spanLength isWhiteSpace (drop d rest))%nat
    end
  else None.

(** [s.replace(/@_user_\d+\s*/g, "")]: [skip] code units of a match found
    earlier are still to be dropped. *)
Fixpoint stripMentionsFrom (skip : nat) (s : jsstring) : jsstring :=
  match s with
  | [] => []
  | c :: s' =>
      match skip with
      | S k => stripMentionsFrom k s'
      | O =>
          match mentionMatch s with
          | Some (S k) => stripMentionsFrom k s'
          | _ => c :: stripMentionsFrom O s'
          end
      end
  end.

Definition stripMentions (s : jsstring) : jsstring := stripMentionsFrom O s.

End JS.
Import JS.

(** ** Thrown values and the SDK domain *)

(** A thrown JavaScript value as the handlers read it:
    [err instanceof Error ? err.message : String(err)]. *)
Inductive JsError :=
| ErrorObject (message : jsstring)
| NonError (asString : jsstring).

Definition errorText (e : JsError) : jsstring :=
  match e with
  | ErrorObject m => m
  | NonError s => s
  end.

(** [Lark.Domain] of the vendor SDK. *)
Inductive SdkDomain := DomainFeishu | DomainLark.

(** [src/lark-domain.ts]: the shared resolver. *)
Module LarkDomain.

Definition resolveLarkDomain (domain : option jsstring) : SdkDomain :=
  if bool_decide (domain = Some (u16 "lark")) then DomainLark else DomainFeishu.

End LarkDomain.

(** ** Configuration ([types.ts]) *)

Record FeishuGroupConfig := {
  group_requireMention : option bool;
}.

(** The fields of the account configuration that the provider reads, and the
    group settings declared next to them.  Every field is optional; the
    threshold (milliseconds) and the port are taken to be integers. *)
Record FeishuAccountConfig := {
  thinkingThresholdMs : option Z;
  botNames : option (list jsstring);
  groups : option (gmap jsstring FeishuGroupConfig);
  requireMention : option bool;
  connectionMode : option jsstring;
  domain : option jsstring;
  encryptKey : option jsstring;
  verificationToken : option jsstring;
  webhookPort : option Z;
  webhookPath : option jsstring;
}.

Record ResolvedFeishuAccount := {
  accountId : jsstring;
  appId : jsstring;
  appSecret : jsstring;
  config : FeishuAccountConfig;
}.

(** ** Effects

    Every call the provider makes on a collaborator (logger, status sink,
    vendor SDK, HTTP server, timers, the send helpers, the host's reply
    dispatcher) is recorded, in order.  [Date.now()] stamps inside status
    patches are left out. *)

Inductive StatusPatch :=
| PatchRunning (mode : jsstring)
| PatchStopped
| PatchError (lastError : jsstring)
| PatchInbound
| PatchOutbound.

Record InboundCtx := {
  Body : jsstring;
  RawBody : jsstring;
  CommandBody : jsstring;
  From : jsstring;
  To : jsstring;
  SessionKey : jsstring;
  AccountId : jsstring;
  MessageSid : option jsstring;
  ChatType : jsstring;
  ConversationLabel : jsstring;
  SenderId : jsstring;
  OriginatingTo : jsstring;
}.

Inductive Effect :=
| LogInfo (msg : jsstring)
| LogError (msg : jsstring)
| Status (patch : StatusPatch)
| NewClient (app secret : jsstring) (d : SdkDomain)
| RegisterHandler (encrypt token : option jsstring)
| NewWSClient (app secret : jsstring) (d : SdkDomain)
| WSStart
| AdaptDefault (path : jsstring)
| CreateServer
| Listen (port : Z)
| ServerOnError
| ServerClose
| WriteHead (status : Z) (contentType : jsstring)
| ResEnd (body : jsstring)
| SetTimeout (ms : Z)
| ClearTimeout
| CreateMessage (chat content : jsstring)
| DeleteMessage (messageId : jsstring)
| UpdateMessage (messageId text : jsstring)
| SendTextMessage (chat text : jsstring)
| SendMediaMessage (chat mediaUrl text : jsstring)
| Dispatch (ictx : InboundCtx).

(** [statusSink?.(patch)] *)
Definition sink (hasStatusSink : bool) (patch : StatusPatch) : list Effect :=
  if hasStatusSink then [Status patch] else [].

(** [`${n}`] for an integer. *)
Definition numberToString (z : Z) : jsstring :=
  u16 (NilZero.string_of_int (Z.to_int z)).

(** [`[feishu:${account.accountId}] ${rest}`] *)
Definition tagged (account : ResolvedFeishuAccount) (rest : jsstring) : jsstring :=
  u16 "[feishu:" ++ accountId account ++ u16 "] " ++ rest.

(** [x || undefined] *)
Definition orUndefined (x : option jsstring) : option jsstring :=
  if truthyOpt x then x else None.

(** ** Starting the provider *)

Module Provider.

(** The private copy of the resolver in the provider file. *)
Definition resolveLarkDomain (domain : option jsstring) : SdkDomain :=
  if bool_decide (domain = Some (u16 "lark")) then DomainLark else DomainFeishu.

(** Which [stop] closure the caller gets back. *)
Inductive Started := WebSocketStarted | WebhookStarted.

(** What a start function gives its caller: the [stop] closure, or the
    [RangeError] that [server.listen] throws for a bad port. *)
Inductive StartResult := Stops (started : Started) | ListenThrows.

(** [server.listen(port, ...)] accepts the ports 0 to 65535 and throws
    synchronously for any other number. *)
Definition validPort (port : Z) : bool := (0 <=? port)%Z && (port <=? 65535)%Z.

Definition startWebhookProvider (account : ResolvedFeishuAccount)
  : StartResult * list Effect :=
  let port := default 3000%Z (webhookPort (config account)) in
  let webhookPath := default (u16 "/feishu/events") (webhookPath (config account)) in
  if validPort port then
    (Stops WebhookStarted,
     [AdaptDefault webhookPath; CreateServer; Listen port; ServerOnError])
  else
    (ListenThrows, [AdaptDefault webhookPath; CreateServer; Listen port]).

Definition startFeishuProvider (account : ResolvedFeishuAccount) (hasStatusSink : bool)
  : StartResult * list Effect :=
  let connectionMode := default (u16 "websocket") (connectionMode (config account)) in
  let domain := default (u16 "feishu") (domain (config account)) in
  let sdkDomain := resolveLarkDomain (Some domain) in
  let setup :=
    [ LogInfo (tagged account
        (u16 "Starting " ++ connectionMode ++ u16 " provider (appId=" ++ appId account
         ++ u16 ", domain=" ++ domain ++ u16 ")"));
      NewClient (appId account) (appSecret account) sdkDomain;
      RegisterHandler (orUndefined (encryptKey (config account)))
                      (orUndefined (verificationToken (config account))) ] in
  if bool_decide (connectionMode = u16 "webhook") then
    let '(result, effs) := startWebhookProvider account in
    (result, setup ++ effs)
  else
    (Stops WebSocketStarted,
     setup ++ [ NewWSClient (appId account) (appSecret account) sdkDomain;
                WSStart;
                LogInfo (tagged account (u16 "WebSocket client started")) ]
           ++ sink hasStatusSink (PatchRunning (u16 "websocket"))).

(** The [listen] callback of the webhook server. *)
Definition webhookListening (account : ResolvedFeishuAccount) (hasStatusSink : bool)
  : list Effect :=
  let port := default 3000%Z (webhookPort (config account)) in
  let webhookPath := default (u16 "/feishu/events") (webhookPath (config account)) in
  LogInfo (tagged account
     (u16 "Webhook server listening on port " ++ numberToString port
      ++ u16 ", path " ++ webhookPath))
  :: sink hasStatusSink (PatchRunning (u16 "webhook")).

(** The [error] listener of the webhook server. *)
Definition webhookServerError (account : ResolvedFeishuAccount) (hasStatusSink : bool)
  (message : jsstring) : list Effect :=
  LogError (tagged account (u16 "Webhook server error: " ++ message))
  :: sink hasStatusSink (PatchError message).

Definition stop (started : Started) (account : ResolvedFeishuAccount)
  (hasStatusSink : bool) : list Effect :=
  match started with
  | WebSocketStarted =>
      LogInfo (tagged account (u16 "Stopping WebSocket provider"))
      :: sink hasStatusSink PatchStopped
  | WebhookStarted =>
      [LogInfo (tagged account (u16 "Stopping Webhook server")); ServerClose]
      ++ sink hasStatusSink PatchStopped
  end.

(** *** One webhook request

    [webhookHandler(req, res)] is the SDK's adapter; what it did to the
    response before settling is the [Response] the callback sees. *)
Record Response := {
  headersSent : bool;
  statusCode : option Z;
  body : option jsstring;
}.

Inductive Settled := Fulfils | Rejects (e : JsError).

Definition onRequest (account : ResolvedFeishuAccount) (adapted : Settled)
  (res : Response) : Response * list Effect :=
  match adapted with
  | Fulfils => (res, [])
  | Rejects err =>
      let logged := LogError (tagged account (u16 "Webhook handler error: " ++ errorText err)) in
      if headersSent res then (res, [logged])
      else
        ({| headersSent := true;
            statusCode := Some 500%Z;
            body := Some (u16 "Internal Server Error") |},
         [logged; WriteHead 500 (u16 "text/plain"); ResEnd (u16 "Internal Server Error")])
  end.

End Provider.

(** ** The inbound message handler *)

(** Modelled from the spec: [isDuplicate] of [dedup.js], which is not among
    the sources.  The spec's glossary describes it as "suppressing repeated
    processing of an already-seen message id", over an in-memory cache; the
    cache is the set of ids seen so far and nothing is evicted inside the
    dedup window.  A missing id is not an id that was seen. *)
Definition isDuplicate (seen : gset jsstring) (messageId : option jsstring)
  : bool * gset jsstring :=
  match messageId with
  | None => (false, seen)
  | Some id => if bool_decide (id ∈ seen) then (true, seen) else (false, {[ id ]} ∪ seen)
  end.

(** What [getFeishuRuntime()] yields ([runtime.js] is the host's registry):
    it may throw, it may lack the reply dispatcher, and its optional
    [config.loadConfig()] may throw. *)
Inductive LoadConfig := NoLoadConfig | LoadConfigReturns | LoadConfigThrows (e : JsError).

Inductive Runtime :=
| RuntimeThrows (e : JsError)
| RuntimeWithoutDispatch
| RuntimeWithDispatch (loadConfig : LoadConfig).

Record MessageHandlerContext := {
  ctx_account : ResolvedFeishuAccount;
  ctx_thinkingThresholdMs : Z;
  ctx_botNames : option (list jsstring);
  ctx_hasStatusSink : bool;
}.

(** The context [startFeishuProvider] closes [messageHandler] over. *)
Definition handlerContext (account : ResolvedFeishuAccount) (hasStatusSink : bool)
  : MessageHandlerContext :=
  {| ctx_account := account;
     ctx_thinkingThresholdMs := default 2500%Z (thinkingThresholdMs (config account));
     ctx_botNames := botNames (config account);
     ctx_hasStatusSink := hasStatusSink |}.

(** The reply payload handed to [deliver]: a string, an object, or nullish. *)
Inductive Payload :=
| PayloadString (s : jsstring)
| PayloadObject (text body mediaUrl : option jsstring) (mediaUrls : option (list jsstring))
| PayloadNullish.

(** [typeof p === "string" ? p : (p?.text ?? p?.body ?? "")] *)
Definition replyTextOf (p : Payload) : jsstring :=
  match p with
  | PayloadString s => s
  | PayloadObject (Some t) _ _ _ => t
  | PayloadObject None (Some b) _ _ => b
  | PayloadObject None None _ _ => []
  | PayloadNullish => []
  end.

(** [typeof p === "string" ? undefined : (p?.mediaUrl ?? p?.mediaUrls?.[0])] *)
Definition mediaUrlOf (p : Payload) : option jsstring :=
  match p with
  | PayloadString _ => None
  | PayloadObject _ _ (Some u) _ => Some u
  | PayloadObject _ _ None (Some urls) => head urls
  | PayloadObject _ _ None None => None
  | PayloadNullish => None
  end.

(** [!trimmed || trimmed === "NO_REPLY" || trimmed.endsWith("NO_REPLY")] *)
Definition isNoReply (trimmed : jsstring) : bool :=
  negb (truthy trimmed) || streq trimmed (u16 "NO_REPLY") || endsWith trimmed (u16 "NO_REPLY").

(** ["正在思考…"] *)
Definition thinkingText : jsstring := [0x6B63; 0x5728; 0x601D; 0x8003; 0x2026].

(** [JSON.stringify({ text: "正在思考…" })] *)
Definition thinkingContent : jsstring :=
  u16 "{" ++ [0x22] ++ u16 "text" ++ [0x22] ++ u16 ":" ++ [0x22] ++ thinkingText ++ [0x22] ++ u16 "}".

(** *** The closure state of one invocation

    [handleIncomingMessage] is an async function: between two [await]s its
    code runs without interruption, and the timer callback, [deliver],
    [onError] and the body itself share [placeholderId] and [done].  Each
    platform call that is awaited leaves a continuation in [pending] until
    the environment settles it. *)

(** The [timer] constant: [null], or a timeout that is still to fire, has
    fired, or was cleared. *)
Inductive Timer := TimerNull | TimerArmed | TimerFired | TimerCleared.

(** What resumes when an awaited call settles. *)
Inductive Cont :=
| AfterCreate                                   (* timer callback: [client.im.message.create] *)
| AfterSkipDelete                               (* deliver, empty reply: [deleteMessage] *)
| AfterMediaDelete (mediaUrl replyText : jsstring)  (* deliver, media: [deleteMessage] *)
| AfterMediaSend                                (* deliver, media: [sendMediaMessage] *)
| AfterUpdate                                   (* deliver, text: [updateMessage] *)
| AfterSendText                                 (* deliver, text: [sendTextMessage] *)
| AfterOnErrorDelete.                           (* onError: [deleteMessage(...).catch] *)

(** Where the body of [handleIncomingMessage] stands: awaiting the
    dispatcher, awaiting the [deleteMessage] of its [catch] block, or
    settled. *)
Inductive Main :=
| AwaitDispatch
| AwaitCleanup
| Returned
| Failed (e : JsError).

Record HState := {
  placeholderId : jsstring;
  done : bool;
  timer : Timer;
  pending : list Cont;
  main : Main;
}.

Definition setPlaceholderId (v : jsstring) (st : HState) : HState :=
  {| placeholderId := v; done := done st; timer := timer st;
     pending := pending st; main := main st |}.

Definition setDone (st : HState) : HState :=
  {| placeholderId := placeholderId st; done := true; timer := timer st;
     pending := pending st; main := main st |}.

Definition setTimer (t : Timer) (st : HState) : HState :=
  {| placeholderId := placeholderId st; done := done st; timer := t;
     pending := pending st; main := main st |}.

Definition setPending (ks : list Cont) (st : HState) : HState :=
  {| placeholderId := placeholderId st; done := done st; timer := timer st;
     pending := ks; main := main st |}.

Definition setMain (m : Main) (st : HState) : HState :=
  {| placeholderId := placeholderId st; done := done st; timer := timer st;
     pending := pending st; main := m |}.

(** The closure state when the dispatcher is called. *)
Definition initialState (armed : bool) : HState :=
  {| placeholderId := [];
     done := false;
     timer := if armed then TimerArmed else TimerNull;
     pending := [];
     main := AwaitDispatch |}.

(** Suspend on an awaited call. *)
Definition await (k : Cont) (st : HState) : HState :=
  setPending (pending st ++ [k]) st.

(** How an awaited platform call settles; [messageId] is
    [res?.data?.message_id] of the create call and is not read elsewhere. *)
Inductive ApiResult :=
| Resolves (messageId : option jsstring)
| Throws (e : JsError).

(** What the environment does next. *)
Inductive Event :=
| TimerFires
| Deliver (p : Payload)
| OnError (message : jsstring)
| DispatchResolves
| DispatchRejects (e : JsError)
| CleanupSettles (r : ApiResult)
| Settles (i : nat) (r : ApiResult).

(** A JavaScript promise. *)
Inductive Promise := Pending | Fulfilled | Rejected (e : JsError).

(** The promise of [handleIncomingMessage]. *)
Definition handlerPromise (m : Main) : Promise :=
  match m with
  | AwaitDispatch | AwaitCleanup => Pending
  | Returned => Fulfilled
  | Failed e => Rejected e
  end.

Section Machine.

Variable ctx : MessageHandlerContext.
Variable chatId : jsstring.

(** [done = true; if (timer) clearTimeout(timer);] *)
Definition finish (st : HState) : HState * list Effect :=
  match timer st with
  | TimerNull => (setDone st, [])
  | TimerArmed => (setTimer TimerCleared (setDone st), [ClearTimeout])
  | TimerFired | TimerCleared => (setDone st, [ClearTimeout])
  end.

Definition failedToSend (e : JsError) : Effect :=
  LogError (tagged (ctx_account ctx) (u16 "Failed to send reply: " ++ errorText e)).

(** The timer callback, up to its [await]. *)
Definition timerCallback (st : HState) : HState * list Effect :=
  if done st then (st, [])
  else (await AfterCreate st, [CreateMessage chatId thinkingContent]).

(** [deliver(payload)], up to its first [await]. *)
Definition deliver (st0 : HState) (p : Payload) : HState * list Effect :=
  let '(st, cleared) := finish st0 in
  let replyText := replyTextOf p in
  let mediaUrl := mediaUrlOf p in
  let trimmed := trim replyText in
  if isNoReply trimmed && negb (truthyOpt mediaUrl) then
    if truthy (placeholderId st) then
      (await AfterSkipDelete st, cleared ++ [DeleteMessage (placeholderId st)])
    else (st, cleared)
  else
    let out := cleared ++ sink (ctx_hasStatusSink ctx) PatchOutbound in
    match mediaUrl with
    | Some ((_ :: _) as url) =>
        if truthy (placeholderId st) then
          (await (AfterMediaDelete url replyText) st, out ++ [DeleteMessage (placeholderId st)])
        else
          (await AfterMediaSend st, out ++ [SendMediaMessage chatId url replyText])
    | _ =>
        if truthy (placeholderId st) then
          (await AfterUpdate st, out ++ [UpdateMessage (placeholderId st) replyText])
        else
          (await AfterSendText st, out ++ [SendTextMessage chatId replyText])
    end.

(** [onError(err)]: the delete is started and not awaited. *)
Definition onError (st0 : HState) (message : jsstring) : HState * list Effect :=
  let '(st, cleared) := finish st0 in
  let logged := LogError (tagged (ctx_account ctx) (u16 "Dispatcher error: " ++ message)) in
  if truthy (placeholderId st) then
    (await AfterOnErrorDelete st, cleared ++ [logged; DeleteMessage (placeholderId st)])
  else (st, cleared ++ [logged]).

(** The [catch] block around the dispatch, up to its [await]. *)
Definition catchDispatch (st0 : HState) (e : JsError) : HState * list Effect :=
  let '(st, cleared) := finish st0 in
  let logged := LogError (tagged (ctx_account ctx) (u16 "Dispatch error: " ++ errorText e)) in
  if truthy (placeholderId st) then
    (setMain AwaitCleanup st,
     cleared ++ [logged; DeleteMessage (placeholderId st)])
  else (setMain Returned st, cleared ++ [logged]).

(** The code after an [await], once the awaited call has settled. *)
Definition resume (k : Cont) (r : ApiResult) (st : HState) : HState * list Effect :=
  match k, r with
  | AfterCreate, Resolves messageId => (setPlaceholderId (default [] messageId) st, [])
  | AfterCreate, Throws _ => (st, [])
  | AfterSkipDelete, _ => (st, [])
  | AfterMediaDelete url replyText, Resolves _ =>
      (await AfterMediaSend (setPlaceholderId [] st), [SendMediaMessage chatId url replyText])
  | AfterMediaDelete _ _, Throws e => (st, [failedToSend e])
  | AfterMediaSend, Resolves _ => (st, [])
  | AfterMediaSend, Throws e => (st, [failedToSend e])
  | AfterUpdate, Resolves _ => (setPlaceholderId [] st, [])
  | AfterUpdate, Throws e => (st, [failedToSend e])
  | AfterSendText, Resolves _ => (st, [])
  | AfterSendText, Throws e => (st, [failedToSend e])
  | AfterOnErrorDelete, _ => (st, [])
  end.

(** The end of the [catch] block, once its [deleteMessage] has settled. *)
Definition cleanupSettled (r : ApiResult) (st : HState) : HState :=
  match r with
  | Resolves _ => setMain Returned st
  | Throws e => setMain (Failed e) st
  end.

(** One move of the environment against [handleIncomingMessage]; [None] when
    the move is not possible in [st]. *)
Definition step (st : HState) (ev : Event) : option (HState * list Effect) :=
  match ev with
  | TimerFires =>
      match timer st with
      | TimerArmed => Some (timerCallback (setTimer TimerFired st))
      | _ => None
      end
  | Deliver p => Some (deliver st p)
  | OnError message => Some (onError st message)
  | DispatchResolves =>
      match main st with
      | AwaitDispatch => Some (setMain Returned st, [])
      | _ => None
      end
  | DispatchRejects e =>
      match main st with
      | AwaitDispatch => Some (catchDispatch st e)
      | _ => None
      end
  | CleanupSettles r =>
      match main st with
      | AwaitCleanup => Some (cleanupSettled r st, [])
      | _ => None
      end
  | Settles i r =>
      match pending st !! i with
      | Some k => Some (resume k r (setPending (delete i (pending st)) st))
      | None => None
      end
  end.

(** The [catch] of [messageHandler]: a rejection of [handleIncomingMessage]
    is logged for the account. *)
Definition handlerError (e : JsError) : Effect :=
  LogError (tagged (ctx_account ctx) (u16 "Message handler error: " ++ errorText e)).

Definition caught (before after : Main) : list Effect :=
  match before, after with
  | AwaitCleanup, Failed e => [handlerError e]
  | _, _ => []
  end.

(** One move of the environment against [messageHandler]. *)
Definition messageHandlerStep (st : HState) (ev : Event) : option (HState * list Effect) :=
  match step st ev with
  | Some (st', effs) => Some (st', effs ++ caught (main st) (main st'))
  | None => None
  end.

(** The promise [messageHandler] hands to the event dispatcher. *)
Definition messageHandlerPromise (inner : Promise) : Promise :=
  match inner with
  | Rejected _ => Fulfilled
  | Fulfilled => Fulfilled
  | Pending => Pending
  end.

(** A whole schedule; moves that are not possible are dropped. *)
Fixpoint run (st : HState) (evs : list Event) : HState * list Effect :=
  match evs with
  | [] => (st, [])
  | ev :: evs' =>
      match messageHandlerStep st ev with
      | Some (st', effs) => let '(st'', effs') := run st' evs' in (st'', effs ++ effs')
      | None => run st evs'
      end
  end.

(** Every move of the schedule is possible when its turn comes. *)
Fixpoint feasible (st : HState) (evs : list Event) : bool :=
  match evs with
  | [] => true
  | ev :: evs' =>
      match messageHandlerStep st ev with
      | Some (st', _) => feasible st' evs'
      | None => false
      end
  end.

End Machine.

(** *** From the event to the dispatch *)

Section Inbound.

(** The elements of [message.mentions] are opaque to the handler. *)
Variable Mention : Type.

(** [shouldRespondInGroup] of [group-filter.js]: the mention check and the
    address heuristics, a function of the text, the mentions and the bot's
    names. *)
Variable shouldRespondInGroup : jsstring -> list Mention -> option (list jsstring) -> bool.

(** [(JSON.parse(content).text ?? "")], or [None] when that expression
    throws. *)
Variable parseText : jsstring -> option jsstring.

Record Message := {
  chat_id : option jsstring;
  message_id : option jsstring;
  message_type : option jsstring;
  content : option jsstring;
  chat_type : option jsstring;
  mentions : option (list Mention);
}.

(** The event payload: [data.message] and [data.sender?.sender_id?.open_id]. *)
Record Data := {
  message : option Message;
  sender_open_id : option jsstring;
}.

(** How far [handleIncomingMessage] gets before its first [await]. *)
Inductive Start :=
| Returns (effs : list Effect)
| Rejects (e : JsError) (effs : list Effect)
| Awaits (chatId : jsstring) (st : HState) (effs : list Effect).

(** The text of a text message, parsed and trimmed; [None] where the handler
    returns. *)
Definition messageText (m : Message) : option jsstring :=
  match content m with
  | Some ((_ :: _) as raw) =>
      if bool_decide (message_type m = Some (u16 "text")) then
        match parseText raw with
        | Some t => let text := trim t in if truthy text then Some text else None
        | None => None
        end
      else None
  | _ => None
  end.

(** The text a group message is judged on. *)
Definition groupText (text : jsstring) : jsstring := trim (stripMentions text).

(** The group filter; [None] where the handler returns. *)
Definition groupFilter (ctx : MessageHandlerContext) (m : Message) (text : jsstring)
  : option jsstring :=
  if bool_decide (chat_type m = Some (u16 "group")) then
    let mentions := default [] (mentions m) in
    let text := groupText text in
    if truthy text && shouldRespondInGroup text mentions (ctx_botNames ctx)
    then Some text else None
  else Some text.

Definition inboundCtx (ctx : MessageHandlerContext) (m : Message)
  (chatId senderId text : jsstring) : InboundCtx :=
  let p2p := bool_decide (chat_type m = Some (u16 "p2p")) in
  {| Body := text;
     RawBody := text;
     CommandBody := text;
     From := senderId;
     To := chatId;
     SessionKey := u16 "feishu:" ++ (if p2p then senderId else chatId);
     AccountId := accountId (ctx_account ctx);
     MessageSid := message_id m;
     ChatType := if p2p then u16 "direct" else u16 "group";
     ConversationLabel := chatId;
     SenderId := senderId;
     OriginatingTo := chatId |}.

(** From the status update to the call of the reply dispatcher. *)
Definition dispatchReply (ctx : MessageHandlerContext) (rt : Runtime) (m : Message)
  (chatId senderId text : jsstring) : Start :=
  let received :=
    sink (ctx_hasStatusSink ctx) PatchInbound
    ++ [LogInfo (tagged (ctx_account ctx)
          (u16 "Received from " ++ senderId ++ u16 ": " ++ slice0 80 text))] in
  match rt with
  | RuntimeThrows e => Rejects e received
  | RuntimeWithoutDispatch =>
      Returns (received ++
        [LogError (tagged (ctx_account ctx)
           (u16 "dispatchReplyWithBufferedBlockDispatcher not available"))])
  | RuntimeWithDispatch loadConfig =>
      let armed := (0 <? ctx_thinkingThresholdMs ctx)%Z in
      let st := initialState armed in
      let scheduled :=
        received ++ (if armed then [SetTimeout (ctx_thinkingThresholdMs ctx)] else []) in
      match loadConfig with
      | LoadConfigThrows e => Returns (scheduled ++ snd (catchDispatch ctx st e))
      | _ => Awaits chatId st (scheduled ++ [Dispatch (inboundCtx ctx m chatId senderId text)])
      end
  end.

(** [handleIncomingMessage(data, ctx)] up to its first [await], against the
    dedup cache [seen]. *)
Definition handleIncomingMessage (ctx : MessageHandlerContext) (rt : Runtime)
  (seen : gset jsstring) (data : Data) : Start * gset jsstring :=
  match message data with
  | None => (Returns [], seen)
  | Some m =>
      match chat_id m with
      | Some ((_ :: _) as chatId) =>
          let '(duplicate, seen') := isDuplicate seen (message_id m) in
          if duplicate then (Returns [], seen')
          else
            match messageText m with
            | None => (Returns [], seen')
            | Some text =>
                let senderId := default [] (sender_open_id data) in
                match groupFilter ctx m text with
                | None => (Returns [], seen')
                | Some text' => (dispatchReply ctx rt m chatId senderId text', seen')
                end
            end
      | _ => (Returns [], seen)
      end
  end.

(** One invocation of [messageHandler], with everything the environment does
    to it afterwards: the promise of [handleIncomingMessage], the promise of
    [messageHandler], the effects in order, the closure state if the
    dispatcher was reached, and the dedup cache.  [scheduled] tells whether
    every move of [evs] was possible when its turn came. *)
Record Run := {
  scheduled : bool;
  inner : Promise;
  promise : Promise;
  effects : list Effect;
  final : option HState;
  seenAfter : gset jsstring;
}.

Definition messageHandler (account : ResolvedFeishuAccount) (hasStatusSink : bool)
  (rt : Runtime) (seen : gset jsstring) (data : Data) (evs : list Event) : Run :=
  let ctx := handlerContext account hasStatusSink in
  match handleIncomingMessage ctx rt seen data with
  | (Returns effs, seen') =>
      {| scheduled := bool_decide (evs = []);
         inner := Fulfilled;
         promise := messageHandlerPromise Fulfilled; effects := effs;
         final := None; seenAfter := seen' |}
  | (Rejects e effs, seen') =>
      {| scheduled := bool_decide (evs = []);
         inner := Rejected e;
         promise := messageHandlerPromise (Rejected e);
         effects := effs ++ [handlerError ctx e];
         final := None; seenAfter := seen' |}
  | (Awaits chatId st effs, seen') =>
      let '(st', effs') := run ctx chatId st evs in
      {| scheduled := feasible ctx chatId st evs;
         inner := handlerPromise (main st');
         promise := messageHandlerPromise (handlerPromise (main st'));
         effects := effs ++ effs';
         final := Some st'; seenAfter := seen' |}
  end.

End Inbound.

Arguments Build_Message {Mention}.
Arguments chat_id {Mention}.
Arguments message_id {Mention}.
Arguments message_type {Mention}.
Arguments content {Mention}.
Arguments chat_type {Mention}.
Arguments mentions {Mention}.
Arguments Build_Data {Mention}.
Arguments message {Mention}.
Arguments sender_open_id {Mention}.
Arguments messageText {Mention}.
Arguments groupFilter {Mention}.
Arguments inboundCtx {Mention}.
Arguments dispatchReply {Mention}.
Arguments handleIncomingMessage {Mention}.
Arguments messageHandler {Mention}.

(** ** Vocabulary of the properties *)

Fixpoint count (f : Effect -> bool) (effs : list Effect) : nat :=
  match effs with
  | [] => O
  | e :: effs' => if f e then S (count f effs') else count f effs'
  end.

(** The HTTP server of the webhook mode is created. *)
Definition isHttpServer (e : Effect) : bool :=
  match e with CreateServer => true | _ => false end.

(** Anything that belongs to the HTTP server. *)
Definition isHttpEffect (e : Effect) : bool :=
  match e with
  | AdaptDefault _ | CreateServer | Listen _ | ServerOnError | ServerClose => true
  | _ => false
  end.

(** The WebSocket client is created. *)
Definition isWSClient (e : Effect) : bool :=
  match e with NewWSClient _ _ _ => true | _ => false end.

(** Anything that belongs to the WebSocket client. *)
Definition isWSEffect (e : Effect) : bool :=
  match e with NewWSClient _ _ _ | WSStart => true | _ => false end.

(** The reply dispatcher is invoked. *)
Definition isDispatch (e : Effect) : bool :=
  match e with Dispatch _ => true | _ => false end.

(** The placeholder create call. *)
Definition isCreate (e : Effect) : bool :=
  match e with CreateMessage _ _ => true | _ => false end.

(** A call that puts content on the platform: create, update, text or media. *)
Definition isSend (e : Effect) : bool :=
  match e with
  | CreateMessage _ _ | UpdateMessage _ _ | SendTextMessage _ _ | SendMediaMessage _ _ _ => true
  | _ => false
  end.

(** A timer or a call on a placeholder. *)
Definition isPlaceholderEffect (e : Effect) : bool :=
  match e with
  | SetTimeout _ | ClearTimeout | CreateMessage _ _ | DeleteMessage _ | UpdateMessage _ _ => true
  | _ => false
  end.

(** An update or a delete of the message [pid]. *)
Definition touches (pid : jsstring) (e : Effect) : bool :=
  match e with
  | DeleteMessage m => streq m pid
  | UpdateMessage m _ => streq m pid
  | _ => false
  end.

(** An update or a delete of any message. *)
Definition isUpdateOrDelete (e : Effect) : bool :=
  match e with DeleteMessage _ | UpdateMessage _ _ => true | _ => false end.

(** [deliver] or [onError]. *)
Definition isReply (ev : Event) : bool :=
  match ev with Deliver _ | OnError _ => true | _ => false end.

(** Nothing is left to happen: the body has settled, no awaited call is
    outstanding and the timer cannot fire. *)
Definition quiescent (st : HState) : bool :=
  match main st, pending st, timer st with
  | (Returned | Failed _), [], (TimerNull | TimerFired | TimerCleared) => true
  | _, _, _ => false
  end.

(** A placeholder is recorded and no update or delete was ever issued for it. *)
Definition orphaned (st : HState) (effs : list Effect) : bool :=
  truthy (placeholderId st) && negb (existsb (touches (placeholderId st)) effs).

(** No timer, no placeholder, and no create in flight. *)
Definition placeholderFree (st : HState) : Prop :=
  placeholderId st = [] /\ timer st = TimerNull /\ AfterCreate ∉ pending st.

(** What the declarations of [types.ts] document for a group chat: the
    per-group [requireMention], else the account-wide one, else [true]. *)
Definition documentedRequireMention (cfg : FeishuAccountConfig) (chat : jsstring) : bool :=
  let perGroup :=
    match groups cfg with
    | Some g =>
        match g !! chat with
        | Some groupConfig => group_requireMention groupConfig
        | None => None
        end
    | None => None
    end in
  default (default true (requireMention cfg)) perGroup.

(** A status patch is pushed to the sink. *)
Definition isStatus (e : Effect) : bool :=
  match e with Status _ => true | _ => false end.

Definition isSetTimeout (e : Effect) : bool :=
  match e with SetTimeout _ => true | _ => false end.

Definition isClearTimeout (e : Effect) : bool :=
  match e with ClearTimeout => true | _ => false end.

(** A media upload. *)
Definition isMediaSend (e : Effect) : bool :=
  match e with SendMediaMessage _ _ _ => true | _ => false end.

(** The reply text is put on the platform, in the placeholder or as a new
    message. *)
Definition isTextDelivery (e : Effect) : bool :=
  match e with UpdateMessage _ _ | SendTextMessage _ _ => true | _ => false end.

(** Any call on the platform's message API. *)
Definition isPlatformCall (e : Effect) : bool :=
  match e with
  | CreateMessage _ _ | DeleteMessage _ | UpdateMessage _ _
  | SendTextMessage _ _ | SendMediaMessage _ _ _ => true
  | _ => false
  end.

(** A message is created or sent in a chat other than [chat]. *)
Definition addressesOther (chat : jsstring) (e : Effect) : bool :=
  match e with
  | CreateMessage c _ | SendTextMessage c _ | SendMediaMessage c _ _ => negb (streq c chat)
  | _ => false
  end.

(** The message ids that settled platform calls handed back. *)
Fixpoint returnedIds (evs : list Event) : list jsstring :=
  match evs with
  | [] => []
  | Settles _ (Resolves (Some id)) :: evs' => id :: returnedIds evs'
  | _ :: evs' => returnedIds evs'
  end.

(** An update or a delete of a message whose id is not among [ids]. *)
Definition touchesOutside (ids : list jsstring) (e : Effect) : bool :=
  match e with
  | DeleteMessage m | UpdateMessage m _ => negb (bool_decide (m ∈ ids))
  | _ => false
  end.

(** What a single move of the closure can do: clear the timer, log an
    error, report an outbound message to the sink if there is one, create
    the placeholder in the chat, update or delete the recorded placeholder,
    send text or media to the chat. *)
Definition stepEffect (hasStatusSink : bool) (chat pid : jsstring) (e : Effect) : Prop :=
  match e with
  | ClearTimeout | LogError _ => True
  | Status PatchOutbound => hasStatusSink = true
  | CreateMessage c content => c = chat /\ content = thinkingContent
  | DeleteMessage m | UpdateMessage m _ => m = pid /\ truthy pid = true
  | SendTextMessage c _ | SendMediaMessage c _ _ => c = chat
  | _ => False
  end.

(** [@_user_] *)
Definition mentionTag : jsstring := u16 "@_user_".

(** ** Sample inputs *)

Definition plainConfig : FeishuAccountConfig :=
  {| thinkingThresholdMs := None; botNames := None; groups := None;
     requireMention := None; connectionMode := None; domain := None;
     encryptKey := None; verificationToken := None;
     webhookPort := None; webhookPath := None |}.

Definition sampleAccount (cfg : FeishuAccountConfig) : ResolvedFeishuAccount :=
  {| accountId := u16 "main"; appId := u16 "cli_a1"; appSecret := u16 "s3cret";
     config := cfg |}.

Definition withConnectionMode (mode : jsstring) : FeishuAccountConfig :=
  {| thinkingThresholdMs := None; botNames := None; groups := None;
     requireMention := None; connectionMode := Some mode; domain := None;
     encryptKey := None; verificationToken := None;
     webhookPort := None; webhookPath := None |}.

(** Webhook mode on the given port. *)
Definition withWebhookPort (port : Z) : FeishuAccountConfig :=
  {| thinkingThresholdMs := None; botNames := None; groups := None;
     requireMention := None; connectionMode := Some (u16 "webhook"); domain := None;
     encryptKey := None; verificationToken := None;
     webhookPort := Some port; webhookPath := None |}.

Definition withThreshold (ms : Z) : FeishuAccountConfig :=
  {| thinkingThresholdMs := Some ms; botNames := None; groups := None;
     requireMention := None; connectionMode := None; domain := None;
     encryptKey := None; verificationToken := None;
     webhookPort := None; webhookPath := None |}.

(** The group [chat] is configured with [requireMention: false]. *)
Definition withOpenGroup (chat : jsstring) : FeishuAccountConfig :=
  {| thinkingThresholdMs := None; botNames := None;
     groups := Some {[ chat := {| group_requireMention := Some false |} ]};
     requireMention := None; connectionMode := None; domain := None;
     encryptKey := None; verificationToken := None;
     webhookPort := None; webhookPath := None |}.

Definition contentPrefix : jsstring :=
  u16 "{" ++ [0x22] ++ u16 "text" ++ [0x22] ++ u16 ":" ++ [0x22].

Definition contentSuffix : jsstring := [0x22] ++ u16 "}".

(** The content of a text message whose text needs no escapes. *)
Definition textContent (text : jsstring) : jsstring :=
  contentPrefix ++ text ++ contentSuffix.

(** A reader for contents of exactly that shape, standing in for
    [JSON.parse] on the sample events. *)
Definition readTextContent (raw : jsstring) : option jsstring :=
  if startsWith raw contentPrefix && endsWith raw contentSuffix
     && (length contentPrefix + length contentSuffix <=? length raw)%nat
  then Some (take (length raw - length contentPrefix - length contentSuffix)%nat
               (drop (length contentPrefix) raw))
  else None.

(** A group filter that finds no mention and no address in any message. *)
Definition neverAddressed (text : jsstring) (mentions : list unit)
  (names : option (list jsstring)) : bool := false.

(** A group filter that answers exactly when somebody is mentioned. *)
Definition whenMentioned (text : jsstring) (mentions : list unit)
  (names : option (list jsstring)) : bool :=
  match mentions with [] => false | _ :: _ => true end.

Definition textEvent (chatType chat id sender text : jsstring) : Data unit :=
  {| message := Some {| chat_id := Some chat; message_id := Some id;
                        message_type := Some (u16 "text");
                        content := Some (textContent text);
                        chat_type := Some chatType; mentions := None |};
     sender_open_id := Some sender |}.

(** An event that carries a message id and no chat id. *)
Definition chatlessEvent (id : jsstring) : Data unit :=
  {| message := Some {| chat_id := None; message_id := Some id;
                        message_type := Some (u16 "text");
                        content := Some (textContent (u16 "hi"));
                        chat_type := Some (u16 "p2p"); mentions := None |};
     sender_open_id := None |}.

Definition readyRuntime : Runtime := RuntimeWithDispatch NoLoadConfig.

(** A direct message "hello" from [ou_1] in chat [oc_1]. *)
Definition directMessage : Data unit :=
  textEvent (u16 "p2p") (u16 "oc_1") (u16 "om_1") (u16 "ou_1") (u16 "hello").

(** A group message "hello" in chat [oc_1] that mentions nobody. *)
Definition groupMessage : Data unit :=
  textEvent (u16 "group") (u16 "oc_1") (u16 "om_1") (u16 "ou_1") (u16 "hello").

(** An image message in chat [oc_1]. *)
Definition imageMessage : Data unit :=
  {| message := Some {| chat_id := Some (u16 "oc_1"); message_id := Some (u16 "om_7");
                        message_type := Some (u16 "image");
                        content := Some (u16 "{}");
                        chat_type := Some (u16 "p2p"); mentions := None |};
     sender_open_id := Some (u16 "ou_1") |}.

(** A group filter that finds every message addressed to the bot. *)
Definition alwaysAddressed (text : jsstring) (mentions : list unit)
  (names : option (list jsstring)) : bool := true.

(** A group message in chat [oc_1] whose text is one mention placeholder. *)
Definition mentionOnlyMessage : Data unit :=
  textEvent (u16 "group") (u16 "oc_1") (u16 "om_2") (u16 "ou_1") (u16 "@_user_1").

(** A closure state in which the placeholder [om_ph] is recorded. *)
Definition placeholderRecorded : HState :=
  setPlaceholderId (u16 "om_ph") (setTimer TimerFired (initialState true)).

(** The handler of the sample account: default threshold, no status sink. *)
Definition sampleHandler (seen : gset jsstring) (data : Data unit) (evs : list Event) : Run :=
  messageHandler neverAddressed readTextContent (sampleAccount plainConfig) false
    readyRuntime seen data evs.

(** The timer fires and its create call is still in flight when the reply is
    delivered; the create then returns the id [om_ph]. *)
Definition inFlightCreateSchedule : list Event :=
  [ TimerFires;
    Deliver (PayloadString (u16 "hi"));
    Settles 0 (Resolves (Some (u16 "om_ph")));
    Settles 0 (Resolves None);
    DispatchResolves ].

(** The placeholder [om_ph] exists when the reply is delivered, and the
    platform rejects the update. *)
Definition failedUpdateSchedule : list Event :=
  [ TimerFires;
    Settles 0 (Resolves (Some (u16 "om_ph")));
    Deliver (PayloadString (u16 "hi"));
    Settles 0 (Throws (ErrorObject (u16 "update rejected")));
    DispatchResolves ].

(** The timer fires, the platform rejects the placeholder create, and the
    reply is delivered afterwards. *)
Definition failedCreateSchedule : list Event :=
  [ TimerFires;
    Settles 0 (Throws (ErrorObject (u16 "rate limited")));
    Deliver (PayloadString (u16 "hi"));
    Settles 0 (Resolves None);
    DispatchResolves ].

(** What the sample handler has done by the time it calls the dispatcher. *)
Definition sampleDispatchEffects : list Effect :=
  [ LogInfo (u16 "[feishu:main] Received from ou_1: hello");
    SetTimeout 2500;
    Dispatch {| Body := u16 "hello"; RawBody := u16 "hello"; CommandBody := u16 "hello";
                From := u16 "ou_1"; To := u16 "oc_1"; SessionKey := u16 "feishu:ou_1";
                AccountId := u16 "main"; MessageSid := Some (u16 "om_1");
                ChatType := u16 "direct"; ConversationLabel := u16 "oc_1";
                SenderId := u16 "ou_1"; OriginatingTo := u16 "oc_1" |} ].

(** * Properties *)

(** ** The string helpers on sample values *)

Example trim_strips_both_ends : trim (u16 "  hi NO_REPLY ") = u16 "hi NO_REPLY".
Proof. reflexivity. Qed.

Example trim_strips_line_terminators : trim [0x0A; 0x3000; 0x68; 0x20; 0x69; 0xFEFF] = [0x68; 0x20; 0x69].
Proof. reflexivity. Qed.

Example stripMentions_drops_placeholders :
  stripMentions (u16 "@_user_1  hello @_user_22 @_user_x") = u16 "hello @_user_x".
Proof. reflexivity. Qed.

Example isNoReply_samples :
  isNoReply [] = true
  /\ isNoReply (u16 "NO_REPLY") = true
  /\ isNoReply (u16 "done. NO_REPLY") = true
  /\ isNoReply (u16 "NO_REPLY needed") = false.
Proof. repeat split. Qed.

Example readTextContent_reads : readTextContent (textContent (u16 "hello")) = Some (u16 "hello").
Proof. reflexivity. Qed.

Example webhook_listening_log :
  Provider.webhookListening (sampleAccount plainConfig) true
  = [ LogInfo (u16 "[feishu:main] Webhook server listening on port 3000, path /feishu/events");
      Status (PatchRunning (u16 "webhook")) ].
Proof. reflexivity. Qed.

(** ** The domain resolver and the connection mode *)

Lemma default_eq_iff (d x : jsstring) (o : option jsstring) :
  d ≠ x -> default d o = x <-> o = Some x.
Proof.
  intros Hd. destruct o as [y|]; simpl; split; intros H; try congruence.
Qed.

(** C9. [resolveLarkDomain] answers [Lark.Domain.Lark] exactly for the string
    "lark" and [Lark.Domain.Feishu] for every other argument, [undefined]
    included; the provider's private copy is the same function. *)
Theorem resolveLarkDomain_lark_only (d : option jsstring) :
  (LarkDomain.resolveLarkDomain d = DomainLark <-> d = Some (u16 "lark"))
  /\ (LarkDomain.resolveLarkDomain d = DomainFeishu <-> d ≠ Some (u16 "lark"))
  /\ LarkDomain.resolveLarkDomain None = DomainFeishu
  /\ LarkDomain.resolveLarkDomain (Some (u16 "feishu")) = DomainFeishu
  /\ Provider.resolveLarkDomain d = LarkDomain.resolveLarkDomain d.
Proof.
  unfold LarkDomain.resolveLarkDomain, Provider.resolveLarkDomain.
  repeat split; try (case_bool_decide; congruence); try reflexivity.
Qed.

Lemma count_app (f : Effect -> bool) (xs ys : list Effect) :
  count f (xs ++ ys) = (count f xs + count f ys)%nat.
Proof.
  induction xs as [|x xs IH]; simpl; [reflexivity|].
  destruct (f x); simpl; rewrite IH; reflexivity.
Qed.

Lemma count_sink (f : Effect -> bool) (b : bool) (p : StatusPatch) :
  f (Status p) = false -> count f (sink b p) = O.
Proof. intros H. destruct b; simpl; [rewrite H|]; reflexivity. Qed.

(** C8, as amended.  For every account [startFeishuProvider] sets up one
    connection mode and never both.  With [connectionMode] equal to "webhook"
    it creates the HTTP server and nothing of the WebSocket client, and it
    returns the server's [stop] when [webhookPort] (3000 by default) is a
    port from 0 to 65535; for any other port [server.listen] throws, and so
    does [startFeishuProvider], with the server created but not listening.
    With any other [connectionMode], or none, it creates and starts the
    WebSocket client, nothing of the HTTP server, and returns. *)
Theorem startFeishuProvider_one_mode (account : ResolvedFeishuAccount) (hasStatusSink : bool) :
  let webhook := bool_decide (connectionMode (config account) = Some (u16 "webhook")) in
  let valid := Provider.validPort (default 3000%Z (webhookPort (config account))) in
  let result := fst (Provider.startFeishuProvider account hasStatusSink) in
  let effs := snd (Provider.startFeishuProvider account hasStatusSink) in
  result = (if webhook
            then if valid then Provider.Stops Provider.WebhookStarted
                 else Provider.ListenThrows
            else Provider.Stops Provider.WebSocketStarted)
  /\ count isHttpServer effs = (if webhook then 1 else 0)%nat
  /\ count isWSClient effs = (if webhook then 0 else 1)%nat
  /\ count isHttpEffect effs = (if webhook then if valid then 4 else 3 else 0)%nat
  /\ count isWSEffect effs = (if webhook then 0 else 2)%nat.
Proof.
  unfold Provider.startFeishuProvider, Provider.startWebhookProvider.
  destruct (connectionMode (config account)) as [mode|]; simpl;
    repeat case_bool_decide; simplify_eq; simpl;
    try destruct (Provider.validPort _); simpl;
    rewrite ?count_sink by reflexivity; repeat split.
Qed.

(** C8, as stated, fails: in webhook mode with the port 65536 [server.listen]
    throws, [startFeishuProvider] throws with it, and no connection mode is
    started: the server is created and never listens, no [error] listener is
    attached and nothing can stop it. *)
Lemma webhook_bad_port_starts_nothing :
  let account := sampleAccount (withWebhookPort 65536) in
  fst (Provider.startFeishuProvider account false) = Provider.ListenThrows
  /\ snd (Provider.startFeishuProvider account false)
     = [ LogInfo (u16 "[feishu:main] Starting webhook provider (appId=cli_a1, domain=feishu)");
         NewClient (u16 "cli_a1") (u16 "s3cret") DomainFeishu;
         RegisterHandler None None;
         AdaptDefault (u16 "/feishu/events"); CreateServer; Listen 65536 ].
Proof. vm_compute. split; reflexivity. Qed.


(** C7. When the adapted webhook handler rejects, the server logs the error;
    if the response headers were not sent yet it answers with status 500 and
    the body "Internal Server Error", and if they were it leaves the response
    untouched. *)
Theorem onRequest_rejection (account : ResolvedFeishuAccount) (err : JsError)
  (res : Provider.Response) :
  let res' := fst (Provider.onRequest account (Provider.Rejects err) res) in
  let effs := snd (Provider.onRequest account (Provider.Rejects err) res) in
  let logged := LogError (tagged account (u16 "Webhook handler error: " ++ errorText err)) in
  head effs = Some logged
  /\ (Provider.headersSent res = false ->
      effs = [logged; WriteHead 500 (u16 "text/plain"); ResEnd (u16 "Internal Server Error")]
      /\ Provider.headersSent res' = true
      /\ Provider.statusCode res' = Some 500%Z
      /\ Provider.body res' = Some (u16 "Internal Server Error"))
  /\ (Provider.headersSent res = true -> effs = [logged] /\ res' = res).
Proof.
  unfold Provider.onRequest.
  destruct (Provider.headersSent res) eqn:Hsent; simpl;
    repeat split; intros; congruence.
Qed.

Lemma onRequest_rejection_witness :
  let fresh := {| Provider.headersSent := false; Provider.statusCode := None;
                  Provider.body := None |} in
  let err := ErrorObject (u16 "bad signature") in
  Provider.headersSent fresh = false
  /\ snd (Provider.onRequest (sampleAccount plainConfig) (Provider.Rejects err) fresh)
     = [LogError (u16 "[feishu:main] Webhook handler error: bad signature");
        WriteHead 500 (u16 "text/plain"); ResEnd (u16 "Internal Server Error")].
Proof.
  split; [reflexivity|].
  apply (onRequest_rejection (sampleAccount plainConfig)
           (ErrorObject (u16 "bad signature"))
           {| Provider.headersSent := false; Provider.statusCode := None;
              Provider.body := None |}).
  reflexivity.
Defined.

(** ** The closure state machine *)

Section MachineFacts.

Variable ctx : MessageHandlerContext.
Variable chatId : jsstring.

Lemma finish_done (st : HState) : done (fst (finish st)) = true.
Proof. unfold finish. destruct (timer st); reflexivity. Qed.

Lemma finish_placeholderId (st : HState) :
  placeholderId (fst (finish st)) = placeholderId st.
Proof. unfold finish. destruct (timer st); reflexivity. Qed.

Lemma finish_pending (st : HState) : pending (fst (finish st)) = pending st.
Proof. unfold finish. destruct (timer st); reflexivity. Qed.

Lemma finish_main (st : HState) : main (fst (finish st)) = main st.
Proof. unfold finish. destruct (timer st); reflexivity. Qed.

Lemma finish_timer (st : HState) : timer (fst (finish st)) ≠ TimerArmed.
Proof. unfold finish. destruct (timer st) eqn:E; simpl; congruence. Qed.

Lemma finish_null (st : HState) :
  timer st = TimerNull -> finish st = (setDone st, []).
Proof. unfold finish. intros ->. reflexivity. Qed.

Lemma finish_effects (f : Effect -> bool) (st : HState) :
  f ClearTimeout = false -> count f (snd (finish st)) = O.
Proof.
  intros H. unfold finish. destruct (timer st); simpl; rewrite ?H; reflexivity.
Qed.

(** The shape of what [deliver] does, branch by branch. *)
Lemma deliver_cases (st : HState) (p : Payload) :
  let st1 := fst (finish st) in
  let cleared := snd (finish st) in
  let pid := placeholderId st in
  let text := replyTextOf p in
  let out := cleared ++ sink (ctx_hasStatusSink ctx) PatchOutbound in
  deliver ctx chatId st p =
    if isNoReply (trim text) && negb (truthyOpt (mediaUrlOf p)) then
      if truthy pid then (await AfterSkipDelete st1, cleared ++ [DeleteMessage pid])
      else (st1, cleared)
    else if truthyOpt (mediaUrlOf p) then
      if truthy pid
      then (await (AfterMediaDelete (default [] (mediaUrlOf p)) text) st1,
            out ++ [DeleteMessage pid])
      else (await AfterMediaSend st1,
            out ++ [SendMediaMessage chatId (default [] (mediaUrlOf p)) text])
    else
      if truthy pid then (await AfterUpdate st1, out ++ [UpdateMessage pid text])
      else (await AfterSendText st1, out ++ [SendTextMessage chatId text]).
Proof.
  simpl. unfold deliver.
  rewrite <- (finish_placeholderId st).
  destruct (finish st) as [st1 cleared]; simpl.
  destruct (mediaUrlOf p) as [[|c url]|]; simpl;
    destruct (isNoReply _); simpl; reflexivity.
Qed.

Lemma onError_cases (st : HState) (message : jsstring) :
  let logged := LogError (tagged (ctx_account ctx) (u16 "Dispatcher error: " ++ message)) in
  onError ctx st message =
    if truthy (placeholderId st)
    then (await AfterOnErrorDelete (fst (finish st)),
          snd (finish st) ++ [logged; DeleteMessage (placeholderId st)])
    else (fst (finish st), snd (finish st) ++ [logged]).
Proof.
  simpl. unfold onError.
  rewrite <- (finish_placeholderId st).
  destruct (finish st) as [st1 cleared]; reflexivity.
Qed.

Lemma catchDispatch_cases (st : HState) (e : JsError) :
  let logged := LogError (tagged (ctx_account ctx) (u16 "Dispatch error: " ++ errorText e)) in
  catchDispatch ctx st e =
    if truthy (placeholderId st)
    then (setMain AwaitCleanup (fst (finish st)),
          snd (finish st) ++ [logged; DeleteMessage (placeholderId st)])
    else (setMain Returned (fst (finish st)), snd (finish st) ++ [logged]).
Proof.
  simpl. unfold catchDispatch.
  rewrite <- (finish_placeholderId st).
  destruct (finish st) as [st1 cleared]; reflexivity.
Qed.

Lemma run_app (st : HState) (xs ys : list Event) :
  run ctx chatId st (xs ++ ys) =
    (fst (run ctx chatId (fst (run ctx chatId st xs)) ys),
     snd (run ctx chatId st xs) ++ snd (run ctx chatId (fst (run ctx chatId st xs)) ys)).
Proof.
  revert st. induction xs as [|x xs IH]; intros st; simpl.
  - destruct (run ctx chatId st ys); reflexivity.
  - destruct (messageHandlerStep ctx chatId st x) as [[st1 effs1]|]; [|apply IH].
    rewrite IH.
    destruct (run ctx chatId st1 xs) as [st2 effs2]; simpl.
    destruct (run ctx chatId st2 ys) as [st3 effs3]; simpl.
    rewrite app_assoc. reflexivity.
Qed.

Lemma caught_effects (f : Effect -> bool) (before after : Main) :
  (forall m, f (LogError m) = false) -> count f (caught ctx before after) = O.
Proof.
  intros H. unfold caught, handlerError.
  destruct before, after; simpl; rewrite ?H; reflexivity.
Qed.

End MachineFacts.

Ltac count_effects :=
  repeat (rewrite count_app || (rewrite finish_effects by reflexivity)
          || (rewrite count_sink by reflexivity)
          || (rewrite caught_effects by reflexivity));
  simpl; try reflexivity.

Ltac split_step H :=
  first [ rewrite deliver_cases in H
        | rewrite onError_cases in H
        | rewrite catchDispatch_cases in H
        | idtac ];
  repeat case_match; simplify_eq/=.

Section CreateFacts.

Variable ctx : MessageHandlerContext.
Variable chatId : jsstring.

(** Only the timer callback issues the placeholder create, and only while
    [done] is unset. *)
Lemma step_create (st st' : HState) (ev : Event) (effs : list Effect) :
  step ctx chatId st ev = Some (st', effs) ->
  done st = true \/ timer st ≠ TimerArmed \/ ev ≠ TimerFires ->
  count isCreate effs = O.
Proof.
  intros Hstep Hwhy.
  destruct ev; simpl in Hstep.
  - destruct (timer st) eqn:Ht; try discriminate.
    unfold timerCallback in Hstep; simpl in Hstep.
    destruct (done st) eqn:Hd; simplify_eq/=; [reflexivity|].
    destruct Hwhy as [?|[?|?]]; congruence.
  - split_step Hstep; count_effects.
  - split_step Hstep; count_effects.
  - split_step Hstep; count_effects.
  - destruct (main st); try discriminate. split_step Hstep; count_effects.
  - split_step Hstep; count_effects.
  - destruct (pending st !! i) as [k|]; [|discriminate].
    destruct k, r; simplify_eq/=; reflexivity.
Qed.

Lemma step_done (st st' : HState) (ev : Event) (effs : list Effect) :
  step ctx chatId st ev = Some (st', effs) -> done st = true -> done st' = true.
Proof.
  intros Hstep Hd.
  destruct ev; simpl in Hstep.
  - destruct (timer st); try discriminate.
    unfold timerCallback in Hstep; simpl in Hstep. rewrite Hd in Hstep.
    simplify_eq/=. exact Hd.
  - split_step Hstep; apply finish_done.
  - split_step Hstep; apply finish_done.
  - split_step Hstep; exact Hd.
  - destruct (main st); try discriminate. split_step Hstep; apply finish_done.
  - destruct (main st); try discriminate. destruct r; simplify_eq/=; exact Hd.
  - destruct (pending st !! i) as [k|]; [|discriminate].
    destruct k, r; simplify_eq/=; exact Hd.
Qed.

Lemma step_unarmed (st st' : HState) (ev : Event) (effs : list Effect) :
  step ctx chatId st ev = Some (st', effs) ->
  timer st ≠ TimerArmed \/ isReply ev = true -> timer st' ≠ TimerArmed.
Proof.
  intros Hstep Hwhy.
  destruct ev; simpl in Hstep.
  - destruct (timer st) eqn:Ht; try discriminate.
    unfold timerCallback in Hstep; simpl in Hstep.
    destruct (done st); simplify_eq/=; discriminate.
  - split_step Hstep; apply finish_timer.
  - split_step Hstep; apply finish_timer.
  - destruct Hwhy as [Hwhy|?]; [|discriminate]. split_step Hstep; exact Hwhy.
  - destruct (main st); try discriminate. split_step Hstep; apply finish_timer.
  - destruct Hwhy as [Hwhy|?]; [|discriminate].
    destruct (main st); try discriminate. destruct r; simplify_eq/=; exact Hwhy.
  - destruct Hwhy as [Hwhy|?]; [|discriminate].
    destruct (pending st !! i) as [k|]; [|discriminate].
    destruct k, r; simplify_eq/=; exact Hwhy.
Qed.

Lemma messageHandlerStep_inv (st st' : HState) (ev : Event) (effs : list Effect) :
  messageHandlerStep ctx chatId st ev = Some (st', effs) ->
  exists effs0, step ctx chatId st ev = Some (st', effs0)
                /\ effs = effs0 ++ caught ctx (main st) (main st').
Proof.
  unfold messageHandlerStep. intros H.
  destruct (step ctx chatId st ev) as [[st1 effs1]|]; simplify_eq/=.
  eexists; split; reflexivity.
Qed.

Lemma run_done_no_create (evs : list Event) (st : HState) :
  done st = true -> count isCreate (snd (run ctx chatId st evs)) = O.
Proof.
  revert st. induction evs as [|ev evs IH]; intros st Hd; simpl; [reflexivity|].
  destruct (messageHandlerStep ctx chatId st ev) as [[st1 effs1]|] eqn:Hs; [|auto].
  apply messageHandlerStep_inv in Hs as (effs0 & Hs & ->).
  specialize (IH st1 (step_done _ _ _ _ Hs Hd)).
  destruct (run ctx chatId st1 evs) as [st2 effs2]; simpl in *.
  rewrite (count_app _ _ effs2), IH, count_app, (step_create _ _ _ _ Hs) by auto.
  count_effects.
Qed.

Lemma run_unarmed_no_create (evs : list Event) (st : HState) :
  timer st ≠ TimerArmed -> count isCreate (snd (run ctx chatId st evs)) = O.
Proof.
  revert st. induction evs as [|ev evs IH]; intros st Ht; simpl; [reflexivity|].
  destruct (messageHandlerStep ctx chatId st ev) as [[st1 effs1]|] eqn:Hs; [|auto].
  apply messageHandlerStep_inv in Hs as (effs0 & Hs & ->).
  assert (timer st1 ≠ TimerArmed) as Ht1 by (eapply step_unarmed; eauto).
  specialize (IH st1 Ht1).
  destruct (run ctx chatId st1 evs) as [st2 effs2]; simpl in *.
  rewrite (count_app _ _ effs2), IH, count_app, (step_create _ _ _ _ Hs) by auto.
  count_effects.
Qed.

Lemma run_before_timer_no_create (pre : list Event) (st : HState) :
  TimerFires ∉ pre -> count isCreate (snd (run ctx chatId st pre)) = O.
Proof.
  revert st. induction pre as [|ev pre IH]; intros st Hno; simpl; [reflexivity|].
  apply not_elem_of_cons in Hno as [Hev Hno].
  destruct (messageHandlerStep ctx chatId st ev) as [[st1 effs1]|] eqn:Hs; [|auto].
  apply messageHandlerStep_inv in Hs as (effs0 & Hs & ->).
  specialize (IH st1 Hno).
  destruct (run ctx chatId st1 pre) as [st2 effs2]; simpl in *.
  rewrite (count_app _ _ effs2), IH, count_app, (step_create _ _ _ _ Hs) by auto.
  count_effects.
Qed.

Lemma reply_then_no_create (st : HState) (ev : Event) (post : list Event) :
  isReply ev = true -> count isCreate (snd (run ctx chatId st (ev :: post))) = O.
Proof.
  intros Hr. simpl.
  destruct (messageHandlerStep ctx chatId st ev) as [[st1 effs1]|] eqn:Hs.
  - apply messageHandlerStep_inv in Hs as (effs0 & Hs & ->).
    assert (timer st1 ≠ TimerArmed) as Ht1 by (eapply step_unarmed; eauto).
    pose proof (run_unarmed_no_create post st1 Ht1) as Hpost.
    destruct (run ctx chatId st1 post) as [st2 effs2]; simpl in *.
    rewrite (count_app _ _ effs2), Hpost, count_app, (step_create _ _ _ _ Hs).
    + count_effects.
    + right; right. destruct ev; discriminate.
  - unfold messageHandlerStep in Hs.
    destruct ev as [|p|msg| | | |]; try discriminate; simpl in Hs.
    + destruct (deliver ctx chatId st p); discriminate.
    + destruct (onError ctx st msg); discriminate.
Qed.

End CreateFacts.

(** ** The placeholder timer against the reply *)

(** C4, as amended.  If [deliver] or [onError] runs before the timer fires,
    no placeholder create is ever issued, and none is issued once [done] is
    set.  If the timer fires first and its create call has returned a
    non-empty message id before the reply callback runs, the placeholder is
    created first and then updated (text reply) or deleted (media reply,
    empty or NO_REPLY reply, [onError], thrown dispatch error).  If the create
    call fails or yields no id, the failure is swallowed and the reply goes
    out as a new text or media message. *)
Theorem placeholder_timer_race (ctx : MessageHandlerContext) (chatId : jsstring)
  (st : HState) (pre post evs : list Event) (ev : Event)
  (pid msg : jsstring) (p : Payload) (e : JsError) :
  TimerFires ∉ pre -> isReply ev = true -> truthy pid = true ->
  let created := [TimerFires; Settles 0 (Resolves (Some pid))] in
  let direct :=
    CreateMessage chatId thinkingContent :: ClearTimeout ::
      (if isNoReply (trim (replyTextOf p)) && negb (truthyOpt (mediaUrlOf p)) then []
       else sink (ctx_hasStatusSink ctx) PatchOutbound ++
            [if truthyOpt (mediaUrlOf p)
             then SendMediaMessage chatId (default [] (mediaUrlOf p)) (replyTextOf p)
             else SendTextMessage chatId (replyTextOf p)]) in
  count isCreate (snd (run ctx chatId st (pre ++ ev :: post))) = O
  /\ count isCreate (snd (run ctx chatId (setDone st) evs)) = O
  /\ snd (run ctx chatId (initialState true) (created ++ [Deliver p]))
     = CreateMessage chatId thinkingContent :: ClearTimeout ::
         (if isNoReply (trim (replyTextOf p)) && negb (truthyOpt (mediaUrlOf p))
          then [DeleteMessage pid]
          else sink (ctx_hasStatusSink ctx) PatchOutbound ++
               [if truthyOpt (mediaUrlOf p) then DeleteMessage pid
                else UpdateMessage pid (replyTextOf p)])
  /\ snd (run ctx chatId (initialState true) (created ++ [OnError msg]))
     = [CreateMessage chatId thinkingContent; ClearTimeout;
        LogError (tagged (ctx_account ctx) (u16 "Dispatcher error: " ++ msg));
        DeleteMessage pid]
  /\ snd (run ctx chatId (initialState true) (created ++ [DispatchRejects e]))
     = [CreateMessage chatId thinkingContent; ClearTimeout;
        LogError (tagged (ctx_account ctx) (u16 "Dispatch error: " ++ errorText e));
        DeleteMessage pid]
  /\ snd (run ctx chatId (initialState true) [TimerFires; Settles 0 (Throws e); Deliver p])
     = direct
  /\ snd (run ctx chatId (initialState true) [TimerFires; Settles 0 (Resolves None); Deliver p])
     = direct.
Proof.
  intros Hpre Hreply Hpid created direct. subst created direct.
  split; [|split].
  - rewrite run_app. cbn [snd].
    rewrite count_app, run_before_timer_no_create, reply_then_no_create by assumption.
    reflexivity.
  - apply run_done_no_create. reflexivity.
  - simpl. unfold messageHandlerStep; simpl.
    rewrite !deliver_cases, onError_cases, catchDispatch_cases; simpl.
    rewrite Hpid.
    destruct (isNoReply (trim (replyTextOf p))), (truthyOpt (mediaUrlOf p));
      simpl; rewrite ?app_nil_r; repeat split; reflexivity.
Qed.

Lemma placeholder_timer_race_witness :
  let ctx := handlerContext (sampleAccount plainConfig) false in
  let reply := Deliver (PayloadString (u16 "hi")) in
  (TimerFires ∉ ([] : list Event)) /\ isReply reply = true /\ truthy (u16 "om_ph") = true
  /\ snd (run ctx (u16 "oc_1") (initialState true)
            [TimerFires; Settles 0 (Resolves (Some (u16 "om_ph"))); reply])
     = [CreateMessage (u16 "oc_1") thinkingContent; ClearTimeout;
        UpdateMessage (u16 "om_ph") (u16 "hi")].
Proof.
  assert (TimerFires ∉ ([] : list Event)) as Hpre by apply not_elem_of_nil.
  split; [exact Hpre|]. split; [reflexivity|]. split; [reflexivity|].
  exact (proj1 (proj2 (proj2
    (placeholder_timer_race (handlerContext (sampleAccount plainConfig) false)
       (u16 "oc_1") (initialState true) [] [TimerFires] [TimerFires]
       (Deliver (PayloadString (u16 "hi"))) (u16 "om_ph") (u16 "boom")
       (PayloadString (u16 "hi")) (ErrorObject (u16 "boom"))
       Hpre eq_refl eq_refl)))).
Defined.

(** C4, as stated, fails: the timer fires before the reply, the platform
    rejects the placeholder create, and the reply that arrives afterwards is
    sent as a new message; nothing is updated and nothing is deleted. *)
Lemma late_reply_after_failed_create :
  let r := sampleHandler ∅ directMessage failedCreateSchedule in
  scheduled r = true
  /\ effects r = sampleDispatchEffects ++
       [CreateMessage (u16 "oc_1") thinkingContent; ClearTimeout;
        SendTextMessage (u16 "oc_1") (u16 "hi")]
  /\ existsb isUpdateOrDelete (effects r) = false.
Proof. vm_compute. repeat split. Qed.

(** ** Replies that say nothing *)

Lemma isNoReply_spec (trimmed : jsstring) :
  isNoReply trimmed = true <->
  trimmed = [] \/ trimmed = u16 "NO_REPLY" \/ endsWith trimmed (u16 "NO_REPLY") = true.
Proof.
  unfold isNoReply, streq.
  rewrite !orb_true_iff, bool_decide_eq_true, negb_true_iff.
  destruct trimmed; simpl; intuition congruence.
Qed.

(** C5. A payload whose reply text trims to empty, is "NO_REPLY" or ends with
    "NO_REPLY", and which carries no media URL, makes [deliver] delete the
    placeholder if one is recorded and send nothing: no create, update, text
    or media call, neither before nor after the delete settles. *)
Theorem deliver_no_reply (ctx : MessageHandlerContext) (chatId : jsstring)
  (st : HState) (p : Payload) :
  trim (replyTextOf p) = [] \/ trim (replyTextOf p) = u16 "NO_REPLY"
    \/ endsWith (trim (replyTextOf p)) (u16 "NO_REPLY") = true ->
  truthyOpt (mediaUrlOf p) = false ->
  let st' := fst (deliver ctx chatId st p) in
  let effs := snd (deliver ctx chatId st p) in
  let pid := placeholderId st in
  effs = snd (finish st) ++ (if truthy pid then [DeleteMessage pid] else [])
  /\ count isSend effs = O
  /\ pending st' = pending st ++ (if truthy pid then [AfterSkipDelete] else [])
  /\ (forall r s, resume ctx chatId AfterSkipDelete r s = (s, [])).
Proof.
  intros Hskip Hmedia. apply isNoReply_spec in Hskip.
  simpl. rewrite deliver_cases. simpl. rewrite Hskip, Hmedia. simpl.
  destruct (truthy (placeholderId st)); simpl;
    rewrite ?app_nil_r, ?finish_pending; repeat split; count_effects.
  all: intros r s; destruct r; reflexivity.
Qed.

Lemma deliver_no_reply_witness :
  let ctx := handlerContext (sampleAccount plainConfig) false in
  let st := setPlaceholderId (u16 "om_ph") (setTimer TimerFired (initialState true)) in
  let p := PayloadObject (Some (u16 " ok NO_REPLY ")) None None None in
  endsWith (trim (replyTextOf p)) (u16 "NO_REPLY") = true
  /\ truthyOpt (mediaUrlOf p) = false
  /\ snd (deliver ctx (u16 "oc_1") st p) = [ClearTimeout; DeleteMessage (u16 "om_ph")].
Proof.
  split; [reflexivity|]. split; [reflexivity|].
  exact (proj1
    (deliver_no_reply (handlerContext (sampleAccount plainConfig) false) (u16 "oc_1")
       (setPlaceholderId (u16 "om_ph") (setTimer TimerFired (initialState true)))
       (PayloadObject (Some (u16 " ok NO_REPLY ")) None None None)
       (or_intror (or_intror eq_refl)) eq_refl)).
Defined.

(** ** Orphaned placeholders *)

(** C1 fails on the code.  When the reply is delivered while the timer's
    create call is still in flight, the reply is sent as a new message and
    the id the create call returns afterwards is recorded in [placeholderId]
    with nothing left to update or delete it.  When the placeholder is
    recorded and the platform rejects the update, the failure is logged and
    the placeholder is not deleted either. *)
Theorem placeholder_left_orphaned :
  let late := sampleHandler ∅ directMessage inFlightCreateSchedule in
  let rejected := sampleHandler ∅ directMessage failedUpdateSchedule in
  let left :=
    {| placeholderId := u16 "om_ph"; done := true; timer := TimerFired;
       pending := []; main := Returned |} in
  (scheduled late = true
   /\ promise late = Fulfilled
   /\ final late = Some left
   /\ quiescent left = true
   /\ orphaned left (effects late) = true
   /\ effects late = sampleDispatchEffects ++
        [CreateMessage (u16 "oc_1") thinkingContent; ClearTimeout;
         SendTextMessage (u16 "oc_1") (u16 "hi")])
  /\ (scheduled rejected = true
      /\ promise rejected = Fulfilled
      /\ final rejected = Some left
      /\ quiescent left = true
      /\ effects rejected = sampleDispatchEffects ++
           [CreateMessage (u16 "oc_1") thinkingContent; ClearTimeout;
            UpdateMessage (u16 "om_ph") (u16 "hi");
            LogError (u16 "[feishu:main] Failed to send reply: update rejected")]).
Proof. vm_compute. repeat split. Qed.

(** ** A disabled threshold *)

Section PlaceholderFree.

Variable ctx : MessageHandlerContext.
Variable chatId : jsstring.

Lemma placeholderFree_initial : placeholderFree (initialState false).
Proof. repeat split. apply not_elem_of_nil. Qed.

Lemma placeholderFree_await (k : Cont) (st : HState) :
  placeholderFree st -> k ≠ AfterCreate -> placeholderFree (await k st).
Proof.
  intros (Hp & Ht & Hk) Hne. repeat split; simpl; try assumption.
  rewrite not_elem_of_app, list_elem_of_singleton. split; [assumption|congruence].
Qed.

Lemma placeholderFree_finish (st : HState) :
  placeholderFree st -> finish st = (setDone st, []) /\ placeholderFree (setDone st).
Proof.
  intros (Hp & Ht & Hk). split; [apply finish_null; exact Ht|].
  repeat split; assumption.
Qed.

(** What [deliver] does when there is neither timer nor placeholder. *)
Lemma deliver_placeholderFree (st : HState) (p : Payload) :
  placeholderFree st ->
  snd (deliver ctx chatId st p) =
    (if isNoReply (trim (replyTextOf p)) && negb (truthyOpt (mediaUrlOf p)) then []
     else sink (ctx_hasStatusSink ctx) PatchOutbound ++
          [if truthyOpt (mediaUrlOf p)
           then SendMediaMessage chatId (default [] (mediaUrlOf p)) (replyTextOf p)
           else SendTextMessage chatId (replyTextOf p)])
  /\ placeholderFree (fst (deliver ctx chatId st p)).
Proof.
  intros Hfree. destruct (placeholderFree_finish st Hfree) as [Hfin Hdone].
  destruct Hfree as (Hp & Ht & Hk).
  rewrite deliver_cases. simpl. rewrite Hfin, Hp. simpl.
  destruct (isNoReply _), (truthyOpt (mediaUrlOf p)); simpl;
    (split; [reflexivity|]);
    try exact Hdone; apply placeholderFree_await; congruence.
Qed.

Lemma step_placeholderFree (st st' : HState) (ev : Event) (effs : list Effect) :
  placeholderFree st -> step ctx chatId st ev = Some (st', effs) ->
  placeholderFree st' /\ count isPlaceholderEffect effs = O.
Proof.
  intros Hfree Hstep.
  destruct (placeholderFree_finish st Hfree) as [Hfin Hdone].
  destruct ev as [|p|msg| |e|r|i r]; simpl in Hstep.
  - destruct Hfree as (_ & Ht & _). rewrite Ht in Hstep. discriminate.
  - destruct (deliver_placeholderFree st p Hfree) as [Heffs Hst].
    simplify_eq. rewrite Hstep in Heffs, Hst. simpl in Heffs, Hst.
    split; [exact Hst|]. rewrite Heffs.
    destruct (isNoReply _), (truthyOpt (mediaUrlOf p)); simpl; count_effects.
  - rewrite onError_cases in Hstep. simpl in Hstep.
    rewrite Hfin in Hstep. destruct Hfree as (Hp & _). rewrite Hp in Hstep.
    simplify_eq/=. split; [exact Hdone|reflexivity].
  - destruct (main st); simplify_eq/=. split; [exact Hfree|reflexivity].
  - destruct (main st); try discriminate.
    rewrite catchDispatch_cases in Hstep. simpl in Hstep.
    rewrite Hfin in Hstep. destruct Hfree as (Hp & _). rewrite Hp in Hstep.
    simplify_eq/=. split; [exact Hdone|reflexivity].
  - destruct (main st); try discriminate.
    destruct r; simplify_eq/=; (split; [exact Hfree|reflexivity]).
  - destruct (pending st !! i) as [k|] eqn:Hk; [|discriminate].
    destruct Hfree as (Hp & Ht & Hno).
    assert (k ≠ AfterCreate) as Hne.
    { intros ->. apply Hno. eapply list_elem_of_lookup_2. exact Hk. }
    assert (placeholderFree (setPending (delete i (pending st)) st)) as Hdel.
    { repeat split; simpl; try assumption.
      intros Hin. apply Hno. eapply list_elem_of_delete_inv. exact Hin. }
    destruct k, r; simplify_eq/=;
      try (split; [exact Hdel|reflexivity]); try congruence.
    all: split; [|reflexivity].
    all: try (apply placeholderFree_await; [|congruence]).
    all: destruct Hdel as (? & ? & ?); repeat split; assumption.
Qed.

Lemma run_placeholderFree (evs : list Event) (st : HState) :
  placeholderFree st ->
  placeholderFree (fst (run ctx chatId st evs))
  /\ count isPlaceholderEffect (snd (run ctx chatId st evs)) = O.
Proof.
  revert st. induction evs as [|ev evs IH]; intros st Hfree; simpl.
  - split; [exact Hfree|reflexivity].
  - destruct (messageHandlerStep ctx chatId st ev) as [[st1 effs1]|] eqn:Hs; [|auto].
    apply messageHandlerStep_inv in Hs as (effs0 & Hs & ->).
    destruct (step_placeholderFree _ _ _ _ Hfree Hs) as [Hfree1 Hnone].
    destruct (IH st1 Hfree1) as [Hfin Hrest].
    destruct (run ctx chatId st1 evs) as [st2 effs2]; simpl in *.
    split; [exact Hfin|].
    rewrite (count_app _ _ effs2), Hrest, count_app, Hnone. count_effects.
Qed.

End PlaceholderFree.

(** ** From the event to the dispatch *)

Section InboundFacts.

Context {Mention : Type}.
Variable shouldRespondInGroup : jsstring -> list Mention -> option (list jsstring) -> bool.
Variable parseText : jsstring -> option jsstring.

Lemma step_dispatch (ctx : MessageHandlerContext) (chatId : jsstring)
  (st st' : HState) (ev : Event) (effs : list Effect) :
  step ctx chatId st ev = Some (st', effs) -> count isDispatch effs = O.
Proof.
  intros Hstep.
  destruct ev as [|p|msg| |e|r|i r]; simpl in Hstep.
  - destruct (timer st); try discriminate.
    unfold timerCallback in Hstep. destruct (done _); simplify_eq/=; reflexivity.
  - split_step Hstep; count_effects.
  - split_step Hstep; count_effects.
  - split_step Hstep; count_effects.
  - destruct (main st); try discriminate. split_step Hstep; count_effects.
  - split_step Hstep; count_effects.
  - destruct (pending st !! i) as [k|]; [|discriminate].
    destruct k, r; simplify_eq/=; reflexivity.
Qed.

Lemma run_dispatch (ctx : MessageHandlerContext) (chatId : jsstring)
  (evs : list Event) (st : HState) :
  count isDispatch (snd (run ctx chatId st evs)) = O.
Proof.
  revert st. induction evs as [|ev evs IH]; intros st; simpl; [reflexivity|].
  destruct (messageHandlerStep ctx chatId st ev) as [[st1 effs1]|] eqn:Hs; [|auto].
  apply messageHandlerStep_inv in Hs as (effs0 & Hs & ->).
  specialize (IH st1).
  destruct (run ctx chatId st1 evs) as [st2 effs2]; simpl in *.
  rewrite (count_app _ _ effs2), IH, count_app, (step_dispatch _ _ _ _ _ _ Hs).
  count_effects.
Qed.

(** The dispatcher is called once, and only on the path that awaits it. *)
Lemma dispatchReply_dispatch (ctx : MessageHandlerContext) (rt : Runtime)
  (m : Message Mention) (chatId senderId text : jsstring) :
  match dispatchReply ctx rt m chatId senderId text with
  | Returns effs | Rejects _ effs => count isDispatch effs = O
  | Awaits c st effs =>
      c = chatId /\ st = initialState (0 <? ctx_thinkingThresholdMs ctx)%Z
      /\ count isDispatch effs = 1%nat
  end.
Proof.
  unfold dispatchReply.
  destruct rt as [e| |[| |e]]; simpl;
    try rewrite catchDispatch_cases; simpl;
    repeat split;
    destruct (0 <? ctx_thinkingThresholdMs ctx)%Z; simpl; count_effects.
Qed.

(** Without a positive threshold nothing of the placeholder machinery is
    set up. *)
Lemma dispatchReply_unarmed (ctx : MessageHandlerContext) (rt : Runtime)
  (m : Message Mention) (chatId senderId text : jsstring) :
  (ctx_thinkingThresholdMs ctx <= 0)%Z ->
  match dispatchReply ctx rt m chatId senderId text with
  | Returns effs | Rejects _ effs => count isPlaceholderEffect effs = O
  | Awaits c st effs =>
      c = chatId /\ st = initialState false /\ count isPlaceholderEffect effs = O
  end.
Proof.
  intros Hz. unfold dispatchReply.
  assert ((0 <? ctx_thinkingThresholdMs ctx)%Z = false) as -> by (apply Z.ltb_ge; exact Hz).
  destruct rt as [e| |[| |e]]; simpl;
    try rewrite catchDispatch_cases; simpl; repeat split; count_effects.
Qed.

(** The ways through [handleIncomingMessage] up to the dispatch. *)
Lemma handleIncomingMessage_cases (ctx : MessageHandlerContext) (rt : Runtime)
  (seen : gset jsstring) (data : Data Mention) :
  handleIncomingMessage shouldRespondInGroup parseText ctx rt seen data = (Returns [], seen)
  \/ exists m chatId,
       message data = Some m /\ chat_id m = Some chatId /\ truthy chatId = true
       /\ (handleIncomingMessage shouldRespondInGroup parseText ctx rt seen data
             = (Returns [], snd (isDuplicate seen (message_id m)))
           \/ exists t text,
                fst (isDuplicate seen (message_id m)) = false
                /\ messageText parseText m = Some t
                /\ groupFilter shouldRespondInGroup ctx m t = Some text
                /\ handleIncomingMessage shouldRespondInGroup parseText ctx rt seen data
                   = (dispatchReply ctx rt m chatId (default [] (sender_open_id data)) text,
                      snd (isDuplicate seen (message_id m)))).
Proof.
  unfold handleIncomingMessage.
  destruct (message data) as [m|]; [|left; reflexivity].
  destruct (chat_id m) as [[|c chatId]|] eqn:Hchat; try (left; reflexivity).
  right. exists m, (c :: chatId). repeat split; [exact Hchat|].
  destruct (isDuplicate seen (message_id m)) as [[|] seen']; simpl; [left; reflexivity|].
  destruct (messageText parseText m) as [t|] eqn:Ht; [|left; reflexivity].
  destruct (groupFilter shouldRespondInGroup ctx m t) as [text|] eqn:Hg;
    [|left; reflexivity].
  right. exists t, text. repeat split. exact Hg.
Qed.

End InboundFacts.

Section HandlerFacts.

Context {Mention : Type}.
Variable shouldRespondInGroup : jsstring -> list Mention -> option (list jsstring) -> bool.
Variable parseText : jsstring -> option jsstring.

(** C10. With [thinkingThresholdMs] zero or negative no timer is scheduled
    and no placeholder ever exists: over any schedule the handler issues no
    [setTimeout], no placeholder create, no [deleteMessage] and no
    [updateMessage], and every reply that is delivered with something to say
    goes straight to [sendMediaMessage] or [sendTextMessage]. *)
Theorem threshold_off_no_placeholder (account : ResolvedFeishuAccount)
  (hasStatusSink : bool) (rt : Runtime) (seen : gset jsstring) (data : Data Mention)
  (evs pre : list Event) (p : Payload) (z : Z) :
  thinkingThresholdMs (config account) = Some z -> (z <= 0)%Z ->
  let ctx := handlerContext account hasStatusSink in
  let r := messageHandler shouldRespondInGroup parseText account hasStatusSink rt seen data evs in
  count isPlaceholderEffect (effects r) = O
  /\ match handleIncomingMessage shouldRespondInGroup parseText ctx rt seen data with
     | (Awaits chatId st _, _) =>
         timer st = TimerNull
         /\ snd (deliver ctx chatId (fst (run ctx chatId st pre)) p)
            = (if isNoReply (trim (replyTextOf p)) && negb (truthyOpt (mediaUrlOf p)) then []
               else sink hasStatusSink PatchOutbound ++
                    [if truthyOpt (mediaUrlOf p)
                     then SendMediaMessage chatId (default [] (mediaUrlOf p)) (replyTextOf p)
                     else SendTextMessage chatId (replyTextOf p)])
     | _ => True
     end.
Proof.
  intros Hthr Hz ctx r. subst r. unfold messageHandler. fold ctx.
  assert (ctx_thinkingThresholdMs ctx <= 0)%Z as Hctx by (simpl; rewrite Hthr; exact Hz).
  destruct (handleIncomingMessage_cases shouldRespondInGroup parseText ctx rt seen data)
    as [H|(m & chatId & _ & _ & _ & [H|(t & text & _ & _ & _ & H)])];
    rewrite H; simpl; try (split; [reflexivity|exact I]).
  pose proof (dispatchReply_unarmed ctx rt m chatId
                (default [] (sender_open_id data)) text Hctx) as Hstart.
  destruct (dispatchReply ctx rt m chatId (default [] (sender_open_id data)) text)
    as [effs|e effs|c st effs]; simpl.
  - split; [exact Hstart|exact I].
  - split; [|exact I]. rewrite count_app, Hstart. reflexivity.
  - destruct Hstart as (-> & -> & Hstart).
    destruct (run_placeholderFree ctx chatId evs _ placeholderFree_initial) as [_ Hrun].
    destruct (run_placeholderFree ctx chatId pre _ placeholderFree_initial) as [Hpre _].
    destruct (run ctx chatId (initialState false) evs) as [st' effs']; simpl in *.
    split; [rewrite count_app, Hstart, Hrun; reflexivity|].
    split; [reflexivity|].
    apply (deliver_placeholderFree ctx chatId _ p Hpre).
Qed.

Lemma messageHandler_dispatch_once (account : ResolvedFeishuAccount)
  (hasStatusSink : bool) (rt : Runtime) (seen : gset jsstring) (data : Data Mention)
  (evs : list Event) :
  (count isDispatch
     (effects (messageHandler shouldRespondInGroup parseText account hasStatusSink
                 rt seen data evs)) <= 1)%nat.
Proof.
  unfold messageHandler. set (ctx := handlerContext account hasStatusSink).
  destruct (handleIncomingMessage_cases shouldRespondInGroup parseText ctx rt seen data)
    as [H|(m & chatId & _ & _ & _ & [H|(t & text & _ & _ & _ & H)])];
    rewrite H; simpl; try lia.
  pose proof (dispatchReply_dispatch ctx rt m chatId
                (default [] (sender_open_id data)) text) as Hstart.
  destruct (dispatchReply ctx rt m chatId (default [] (sender_open_id data)) text)
    as [effs|e effs|c st effs]; simpl.
  - lia.
  - rewrite count_app, Hstart. simpl. lia.
  - destruct Hstart as (_ & _ & Hstart).
    pose proof (run_dispatch ctx c evs st) as Hrun.
    destruct (run ctx c st evs) as [st' effs']; simpl in *.
    rewrite count_app, Hstart, Hrun. lia.
Qed.

(** An event without a usable chat id leaves no trace at all. *)
Lemma messageHandler_chatless (account : ResolvedFeishuAccount)
  (hasStatusSink : bool) (rt : Runtime) (seen : gset jsstring) (data : Data Mention)
  (m : Message Mention) (evs : list Event) :
  message data = Some m -> truthyOpt (chat_id m) = false ->
  effects (messageHandler shouldRespondInGroup parseText account hasStatusSink
             rt seen data evs) = [].
Proof.
  intros Hm Hchat. unfold messageHandler, handleIncomingMessage. rewrite Hm.
  destruct (chat_id m) as [[|c chatId]|]; try discriminate; reflexivity.
Qed.

(** Once the chat id is there, the message id is in the cache afterwards. *)
Lemma messageHandler_records (account : ResolvedFeishuAccount)
  (hasStatusSink : bool) (rt : Runtime) (seen : gset jsstring) (data : Data Mention)
  (m : Message Mention) (id : jsstring) (evs : list Event) :
  message data = Some m -> message_id m = Some id -> truthyOpt (chat_id m) = true ->
  id ∈ seenAfter (messageHandler shouldRespondInGroup parseText account hasStatusSink
                    rt seen data evs).
Proof.
  intros Hm Hid Hchat. unfold messageHandler, handleIncomingMessage. rewrite Hm.
  destruct (chat_id m) as [[|c chatId]|]; try discriminate.
  rewrite Hid. simpl. case_bool_decide; simpl; [assumption|].
  destruct (messageText parseText m); simpl; [|set_solver].
  destruct (groupFilter _ _ _ _); simpl; [|set_solver].
  destruct (dispatchReply _ _ _ _ _ _) as [effs|e effs|c' st effs]; simpl;
    try set_solver.
  destruct (run _ _ _ _); simpl. set_solver.
Qed.

(** A message id that is in the cache stops the handler at the dedup check,
    if not before. *)
Lemma messageHandler_duplicate (account : ResolvedFeishuAccount)
  (hasStatusSink : bool) (rt : Runtime) (seen : gset jsstring) (data : Data Mention)
  (m : Message Mention) (id : jsstring) (evs : list Event) :
  message data = Some m -> message_id m = Some id -> id ∈ seen ->
  let r := messageHandler shouldRespondInGroup parseText account hasStatusSink
             rt seen data evs in
  effects r = [] /\ final r = None /\ promise r = Fulfilled.
Proof.
  intros Hm Hid Hseen. simpl. unfold messageHandler, handleIncomingMessage.
  rewrite Hm.
  destruct (chat_id m) as [[|c chatId]|]; try (repeat split; reflexivity).
  rewrite Hid. simpl. rewrite bool_decide_eq_true_2 by exact Hseen.
  repeat split; reflexivity.
Qed.

End HandlerFacts.

(** ** Deduplication and the group filter *)

(** C2, as amended.  Two invocations whose events carry the same message id
    reach the reply dispatcher at most once between them.  The earlier one
    records the id when it gets to the dedup check, that is, when its event
    has a non-empty chat id; with the id in the cache the later one returns
    before the dispatch and does nothing at all. *)
Theorem duplicate_dispatched_once {Mention : Type}
  (shouldRespondInGroup : jsstring -> list Mention -> option (list jsstring) -> bool)
  (parseText : jsstring -> option jsstring)
  (account : ResolvedFeishuAccount) (hasStatusSink : bool) (rt1 rt2 : Runtime)
  (seen : gset jsstring) (d1 d2 : Data Mention) (m1 m2 : Message Mention)
  (id : jsstring) (evs1 evs2 : list Event) :
  message d1 = Some m1 -> message d2 = Some m2 ->
  message_id m1 = Some id -> message_id m2 = Some id ->
  let r1 := messageHandler shouldRespondInGroup parseText account hasStatusSink
              rt1 seen d1 evs1 in
  let r2 := messageHandler shouldRespondInGroup parseText account hasStatusSink
              rt2 (seenAfter r1) d2 evs2 in
  (count isDispatch (effects r1) + count isDispatch (effects r2) <= 1)%nat
  /\ (truthyOpt (chat_id m1) = true -> id ∈ seenAfter r1)
  /\ (id ∈ seenAfter r1 -> effects r2 = [] /\ final r2 = None /\ promise r2 = Fulfilled)
  /\ (truthyOpt (chat_id m1) = true ->
      effects r2 = [] /\ final r2 = None /\ promise r2 = Fulfilled).
Proof.
  intros Hm1 Hm2 Hid1 Hid2 r1 r2.
  assert (id ∈ seenAfter r1 -> effects r2 = [] /\ final r2 = None /\ promise r2 = Fulfilled)
    as Hlater.
  { intros Hin. subst r2. eapply messageHandler_duplicate; eassumption. }
  assert (truthyOpt (chat_id m1) = true -> id ∈ seenAfter r1) as Hrec.
  { intros Hchat. subst r1. eapply messageHandler_records; eassumption. }
  split; [|split; [assumption|split; [assumption|auto]]].
  destruct (truthyOpt (chat_id m1)) eqn:Hchat.
  - destruct (Hlater (Hrec eq_refl)) as [-> _]. simpl.
    pose proof (messageHandler_dispatch_once shouldRespondInGroup parseText
                  account hasStatusSink rt1 seen d1 evs1).
    fold r1 in H. lia.
  - subst r1.
    rewrite (messageHandler_chatless shouldRespondInGroup parseText account
               hasStatusSink rt1 seen d1 m1 evs1 Hm1 Hchat). simpl.
    apply messageHandler_dispatch_once.
Qed.

(** C3 fails on the code in its second half.  The group filter is the only
    gate for a group message: whatever the account configuration says about
    [groups] and [requireMention], a group message that
    [shouldRespondInGroup] turns down is dropped before the dispatch. *)
Theorem group_message_dropped {Mention : Type}
  (shouldRespondInGroup : jsstring -> list Mention -> option (list jsstring) -> bool)
  (parseText : jsstring -> option jsstring)
  (account : ResolvedFeishuAccount) (hasStatusSink : bool) (rt : Runtime)
  (seen : gset jsstring) (data : Data Mention) (m : Message Mention)
  (evs : list Event) :
  message data = Some m -> chat_type m = Some (u16 "group") ->
  match messageText parseText m with
  | Some t => shouldRespondInGroup (groupText t) (default [] (mentions m))
                (botNames (config account)) = false
  | None => True
  end ->
  let r := messageHandler shouldRespondInGroup parseText account hasStatusSink
             rt seen data evs in
  effects r = [] /\ final r = None /\ count isDispatch (effects r) = O.
Proof.
  intros Hm Hgroup Hfilter. simpl. unfold messageHandler, handleIncomingMessage.
  rewrite Hm.
  destruct (chat_id m) as [[|c chatId]|]; try (repeat split; reflexivity).
  destruct (isDuplicate seen (message_id m)) as [[|] seen'];
    try (repeat split; reflexivity).
  destruct (messageText parseText m) as [t|]; try (repeat split; reflexivity).
  unfold groupFilter. rewrite bool_decide_eq_true_2 by exact Hgroup.
  simpl. rewrite Hfilter, andb_false_r. repeat split; reflexivity.
Qed.

Lemma duplicate_dispatched_once_witness :
  let r1 := sampleHandler ∅ directMessage [DispatchResolves] in
  let r2 := sampleHandler (seenAfter r1) directMessage [] in
  message_id <$> message directMessage = Some (Some (u16 "om_1"))
  /\ (count isDispatch (effects r1) + count isDispatch (effects r2) <= 1)%nat
  /\ effects r2 = [].
Proof.
  pose proof (duplicate_dispatched_once neverAddressed readTextContent
                (sampleAccount plainConfig) false readyRuntime readyRuntime ∅
                directMessage directMessage _ _ (u16 "om_1") [DispatchResolves] []
                eq_refl eq_refl eq_refl eq_refl) as (Hcount & _ & _ & Hlater).
  split; [reflexivity|]. split; [exact Hcount|].
  apply Hlater. reflexivity.
Defined.

(** C2, as stated, fails: an event that carries the message id [om_1] and no
    chat id returns before the dedup check, and the later event with the
    same message id is not stopped: it reaches the dispatcher. *)
Lemma later_duplicate_dispatched :
  let earlier := chatlessEvent (u16 "om_1") in
  let r1 := sampleHandler ∅ earlier [] in
  let r2 := sampleHandler (seenAfter r1) directMessage [DispatchResolves] in
  message_id <$> message earlier = Some (Some (u16 "om_1"))
  /\ message_id <$> message directMessage = Some (Some (u16 "om_1"))
  /\ effects r1 = []
  /\ effects r2 = sampleDispatchEffects
  /\ count isDispatch (effects r2) = 1%nat.
Proof. vm_compute. repeat split. Qed.

Lemma group_message_dropped_witness :
  let account := sampleAccount (withOpenGroup (u16 "oc_1")) in
  documentedRequireMention (config account) (u16 "oc_1") = false
  /\ chat_type <$> message groupMessage = Some (Some (u16 "group"))
  /\ effects (messageHandler whenMentioned readTextContent account false
                readyRuntime ∅ groupMessage []) = [].
Proof.
  split; [vm_compute; reflexivity|]. split; [reflexivity|].
  exact (proj1
    (group_message_dropped whenMentioned readTextContent
       (sampleAccount (withOpenGroup (u16 "oc_1"))) false readyRuntime ∅
       groupMessage _ [] eq_refl eq_refl eq_refl)).
Defined.

Lemma threshold_off_no_placeholder_witness :
  let account := sampleAccount (withThreshold 0) in
  let reply := Deliver (PayloadString (u16 "hi")) in
  thinkingThresholdMs (config account) = Some 0%Z /\ (0 <= 0)%Z
  /\ count isPlaceholderEffect
       (effects (messageHandler neverAddressed readTextContent account false
                   readyRuntime ∅ directMessage [reply; TimerFires])) = O.
Proof.
  split; [reflexivity|]. split; [lia|].
  exact (proj1
    (threshold_off_no_placeholder neverAddressed readTextContent
       (sampleAccount (withThreshold 0)) false readyRuntime ∅ directMessage
       [Deliver (PayloadString (u16 "hi")); TimerFires] []
       (PayloadString (u16 "hi")) 0%Z eq_refl (Z.le_refl 0))).
Defined.

(** ** Errors of the dispatch *)

Section ErrorFacts.

Variable ctx : MessageHandlerContext.
Variable chatId : jsstring.



End ErrorFacts.


(** The cleanup delete of the [catch] block is rejected: the handler's
    promise rejects, and [messageHandler] logs it and fulfils. *)
Example cleanup_rejection_logged :
  let r := sampleHandler ∅ directMessage
             [ TimerFires; Settles 0 (Resolves (Some (u16 "om_ph")));
               DispatchRejects (ErrorObject (u16 "model down"));
               CleanupSettles (Throws (ErrorObject (u16 "gone"))) ] in
  scheduled r = true
  /\ inner r = Rejected (ErrorObject (u16 "gone"))
  /\ promise r = Fulfilled
  /\ effects r = sampleDispatchEffects ++
       [ CreateMessage (u16 "oc_1") thinkingContent; ClearTimeout;
         LogError (u16 "[feishu:main] Dispatch error: model down");
         DeleteMessage (u16 "om_ph");
         LogError (u16 "[feishu:main] Message handler error: gone") ].
Proof. vm_compute. repeat split. Qed.

(** An event without a chat id returns before the dedup check and leaves its
    message id unrecorded; a later event with the same id and a chat id is
    then processed, and it is the only one of the two that is dispatched. *)
Example chatless_event_not_recorded :
  let r1 := sampleHandler ∅ (chatlessEvent (u16 "om_1")) [] in
  let r2 := sampleHandler (seenAfter r1) directMessage [] in
  effects r1 = []
  /\ bool_decide (u16 "om_1" ∈ seenAfter r1) = false
  /\ effects r2 = sampleDispatchEffects
  /\ bool_decide (u16 "om_1" ∈ seenAfter r2) = true.
Proof. vm_compute. repeat split. Qed.

(** * Further properties of the provider *)

(** ** What one move can do *)

Section StepEffects.

Variable ctx : MessageHandlerContext.
Variable chatId : jsstring.

Lemma finish_allowed (st : HState) : Forall (stepEffect (ctx_hasStatusSink ctx) chatId (placeholderId st)) (snd (finish st)).
Proof.
  unfold finish. destruct (timer st); simpl; repeat constructor.
Qed.

Lemma sink_allowed (st : HState) :
  Forall (stepEffect (ctx_hasStatusSink ctx) chatId (placeholderId st)) (sink (ctx_hasStatusSink ctx) PatchOutbound).
Proof.
  unfold sink. destruct (ctx_hasStatusSink ctx); repeat constructor.
Qed.

Lemma caught_allowed (st : HState) (before after : Main) :
  Forall (stepEffect (ctx_hasStatusSink ctx) chatId (placeholderId st)) (caught ctx before after).
Proof.
  unfold caught. destruct before, after; repeat constructor.
Qed.

Lemma step_effects (st st' : HState) (ev : Event) (effs : list Effect) :
  step ctx chatId st ev = Some (st', effs) -> Forall (stepEffect (ctx_hasStatusSink ctx) chatId (placeholderId st)) effs.
Proof.
  intros Hstep.
  pose proof (finish_allowed st) as Hfin. pose proof (sink_allowed st) as Hsink.
  destruct ev as [|p|msg| |e|r|i r]; simpl in Hstep.
  - destruct (timer st); try discriminate.
    unfold timerCallback in Hstep. destruct (done _); simplify_eq/=; repeat constructor.
  - rewrite deliver_cases in Hstep. simpl in Hstep.
    repeat case_match; simplify_eq/=; rewrite ?Forall_app; repeat split;
      try assumption; repeat constructor; assumption.
  - rewrite onError_cases in Hstep. simpl in Hstep.
    repeat case_match; simplify_eq/=; rewrite ?Forall_app; repeat split;
      try assumption; repeat constructor; assumption.
  - destruct (main st); simplify_eq/=. constructor.
  - destruct (main st); try discriminate.
    rewrite catchDispatch_cases in Hstep. simpl in Hstep.
    repeat case_match; simplify_eq/=; rewrite ?Forall_app; repeat split;
      try assumption; repeat constructor; assumption.
  - destruct (main st); try discriminate. simplify_eq/=. constructor.
  - destruct (pending st !! i) as [k|]; [|discriminate].
    destruct k, r; simplify_eq/=; repeat constructor.
Qed.

Lemma messageHandlerStep_effects (st st' : HState) (ev : Event) (effs : list Effect) :
  messageHandlerStep ctx chatId st ev = Some (st', effs) -> Forall (stepEffect (ctx_hasStatusSink ctx) chatId (placeholderId st)) effs.
Proof.
  intros Hs. apply messageHandlerStep_inv in Hs as (effs0 & Hs & ->).
  rewrite Forall_app. split; [eapply step_effects; exact Hs|apply caught_allowed].
Qed.

(** A count that vanishes on everything a move can do vanishes on the move. *)
Lemma count_allowed (f : Effect -> bool) (pid : jsstring) (effs : list Effect) :
  (forall e, stepEffect (ctx_hasStatusSink ctx) chatId pid e -> f e = false) ->
  Forall (stepEffect (ctx_hasStatusSink ctx) chatId pid) effs -> count f effs = O.
Proof.
  intros Hf Hall. induction Hall as [|e effs He _ IH]; simpl; [reflexivity|].
  rewrite (Hf e He). exact IH.
Qed.

(** The same over a whole schedule, for a count that does not depend on the
    placeholder. *)
Lemma run_count_allowed (f : Effect -> bool) (evs : list Event) (st : HState) :
  (forall pid e, stepEffect (ctx_hasStatusSink ctx) chatId pid e -> f e = false) ->
  count f (snd (run ctx chatId st evs)) = O.
Proof.
  intros Hf. revert st. induction evs as [|ev evs IH]; intros st; simpl; [reflexivity|].
  destruct (messageHandlerStep ctx chatId st ev) as [[st1 effs1]|] eqn:Hs; [|auto].
  specialize (IH st1).
  destruct (run ctx chatId st1 evs) as [st2 effs2]; simpl in *.
  rewrite count_app, IH.
  rewrite (count_allowed f (placeholderId st) effs1 (Hf _)); [reflexivity|].
  eapply messageHandlerStep_effects. exact Hs.
Qed.

End StepEffects.

(** ** What one invocation can do *)

Section InvocationEffects.

Context {Mention : Type}.
Variable shouldRespondInGroup : jsstring -> list Mention -> option (list jsstring) -> bool.
Variable parseText : jsstring -> option jsstring.

Lemma dispatchReply_count (f : Effect -> bool) (ctx : MessageHandlerContext)
  (rt : Runtime) (m : Message Mention) (chatId senderId text : jsstring) :
  (forall s, f (LogInfo s) = false) -> (forall s, f (LogError s) = false) ->
  (forall z, f (SetTimeout z) = false) -> f ClearTimeout = false ->
  (forall c, f (Dispatch c) = false) ->
  (ctx_hasStatusSink ctx = true -> f (Status PatchInbound) = false) ->
  match dispatchReply ctx rt m chatId senderId text with
  | Returns effs | Rejects _ effs | Awaits _ _ effs => count f effs = O
  end.
Proof.
  intros Hinfo Herr Hset Hclear Hdisp Hsink.
  assert (count f (sink (ctx_hasStatusSink ctx) PatchInbound) = O) as Hs.
  { unfold sink. destruct (ctx_hasStatusSink ctx); simpl; [rewrite Hsink|]; reflexivity. }
  unfold dispatchReply.
  destruct rt as [e| |[| |e]]; simpl;
    try rewrite catchDispatch_cases; simpl;
    destruct (0 <? ctx_thinkingThresholdMs ctx)%Z; simpl;
    rewrite ?count_app, ?Hs; simpl;
    rewrite ?Hinfo, ?Herr, ?Hset, ?Hclear, ?Hdisp; reflexivity.
Qed.

(** A count that vanishes on the logs, the timer calls, the dispatch, the
    inbound status patch and on every move of the closure vanishes on the
    whole invocation. *)
Lemma messageHandler_count (f : Effect -> bool) (account : ResolvedFeishuAccount)
  (hasStatusSink : bool) (rt : Runtime) (seen : gset jsstring) (data : Data Mention)
  (evs : list Event) :
  (forall s, f (LogInfo s) = false) -> (forall s, f (LogError s) = false) ->
  (forall z, f (SetTimeout z) = false) -> f ClearTimeout = false ->
  (forall c, f (Dispatch c) = false) ->
  (hasStatusSink = true -> f (Status PatchInbound) = false) ->
  (forall m chat pid e,
     message data = Some m -> chat_id m = Some chat ->
     stepEffect hasStatusSink chat pid e -> f e = false) ->
  count f (effects (messageHandler shouldRespondInGroup parseText account hasStatusSink
                      rt seen data evs)) = O.
Proof.
  intros Hinfo Herr Hset Hclear Hdisp Hsink Hstep.
  unfold messageHandler. set (ctx := handlerContext account hasStatusSink).
  destruct (handleIncomingMessage_cases shouldRespondInGroup parseText ctx rt seen data)
    as [H|(m & chatId & Hm & Hchat & _ & [H|(t & text & _ & _ & _ & H)])];
    rewrite H; simpl; try reflexivity.
  pose proof (dispatchReply_count f ctx rt m chatId (default [] (sender_open_id data)) text
                Hinfo Herr Hset Hclear Hdisp Hsink) as Hstart.
  pose proof (dispatchReply_dispatch ctx rt m chatId
                (default [] (sender_open_id data)) text) as Hshape.
  destruct (dispatchReply ctx rt m chatId (default [] (sender_open_id data)) text)
    as [effs|e effs|c st effs]; simpl.
  - exact Hstart.
  - rewrite count_app, Hstart. unfold handlerError. simpl. rewrite Herr. reflexivity.
  - destruct Hshape as (-> & _ & _).
    pose proof (run_count_allowed ctx chatId f evs st
                  (fun pid e => Hstep m chatId pid e Hm Hchat)) as Hrun.
    destruct (run ctx chatId st evs) as [st' effs']; simpl in *.
    rewrite count_app, Hstart, Hrun. reflexivity.
Qed.

End InvocationEffects.

(** ** Where the replies go *)

(** X1. Every message the handler creates or sends, over any schedule, is
    addressed to the chat the inbound message came from. *)
Theorem replies_stay_in_chat {Mention : Type}
  (shouldRespondInGroup : jsstring -> list Mention -> option (list jsstring) -> bool)
  (parseText : jsstring -> option jsstring)
  (account : ResolvedFeishuAccount) (hasStatusSink : bool) (rt : Runtime)
  (seen : gset jsstring) (data : Data Mention) (m : Message Mention) (chat : jsstring)
  (evs : list Event) :
  message data = Some m -> chat_id m = Some chat ->
  count (addressesOther chat)
    (effects (messageHandler shouldRespondInGroup parseText account hasStatusSink
                rt seen data evs)) = O.
Proof.
  intros Hm Hchat. apply messageHandler_count; try reflexivity.
  intros m' chat' pid e Hm' Hchat' He. simplify_eq.
  assert (negb (streq chat chat) = false) as Hsame.
  { unfold streq. rewrite bool_decide_eq_true_2 by reflexivity. reflexivity. }
  destruct e; simpl in *; try reflexivity.
  - destruct He as [-> _]. exact Hsame.
  - subst. exact Hsame.
  - subst. exact Hsame.
Qed.

Lemma replies_stay_in_chat_witness :
  message directMessage
    = Some {| chat_id := Some (u16 "oc_1"); message_id := Some (u16 "om_1");
              message_type := Some (u16 "text");
              content := Some (textContent (u16 "hello"));
              chat_type := Some (u16 "p2p"); mentions := None |}
  /\ count (addressesOther (u16 "oc_1"))
       (effects (sampleHandler ∅ directMessage inFlightCreateSchedule)) = O.
Proof.
  split; [reflexivity|].
  exact (replies_stay_in_chat neverAddressed readTextContent (sampleAccount plainConfig)
           false readyRuntime ∅ directMessage _ (u16 "oc_1") inFlightCreateSchedule
           eq_refl eq_refl).
Defined.

(** Without a status sink no status patch is ever pushed. *)
Lemma no_sink_no_status {Mention : Type}
  (shouldRespondInGroup : jsstring -> list Mention -> option (list jsstring) -> bool)
  (parseText : jsstring -> option jsstring)
  (account : ResolvedFeishuAccount) (rt : Runtime)
  (seen : gset jsstring) (data : Data Mention) (evs : list Event) :
  count isStatus
    (effects (messageHandler shouldRespondInGroup parseText account false
                rt seen data evs)) = O.
Proof.
  apply messageHandler_count; try reflexivity; try discriminate.
  intros m chat pid e _ _ He.
  destruct e as [| |[| | | |]| | | | | | | | | | | | | | | | | | |];
    simpl in *; try reflexivity; try contradiction; discriminate.
Qed.

(** ** Which messages are updated or deleted *)

Section PlaceholderIds.

Variable ctx : MessageHandlerContext.
Variable chatId : jsstring.

Lemma touchesOutside_mono (ids ids' : list jsstring) (e : Effect) :
  ids ⊆ ids' -> touchesOutside ids e = false -> touchesOutside ids' e = false.
Proof.
  intros Hsub. destruct e; simpl; try reflexivity;
    rewrite !negb_false_iff, !bool_decide_eq_true; intros Hin; apply Hsub, Hin.
Qed.

Lemma count_touchesOutside_mono (ids ids' : list jsstring) (effs : list Effect) :
  ids ⊆ ids' -> count (touchesOutside ids) effs = O -> count (touchesOutside ids') effs = O.
Proof.
  intros Hsub. induction effs as [|e effs IH]; simpl; [reflexivity|].
  destruct (touchesOutside ids e) eqn:He; [discriminate|].
  rewrite (touchesOutside_mono ids ids' e Hsub He). exact IH.
Qed.

(** The recorded placeholder id is empty or an id a settled call returned. *)
Lemma step_placeholderId (st st' : HState) (ev : Event) (effs : list Effect)
  (ids : list jsstring) :
  step ctx chatId st ev = Some (st', effs) ->
  placeholderId st = [] \/ placeholderId st ∈ ids ->
  placeholderId st' = [] \/ placeholderId st' ∈ ids ++ returnedIds [ev].
Proof.
  intros Hstep Hpid.
  assert (placeholderId st = [] \/ placeholderId st ∈ ids ++ returnedIds [ev]) as Hkeep.
  { destruct Hpid as [?|?]; [left; assumption|right; apply elem_of_app; left; assumption]. }
  destruct ev as [|p|msg| |e|r|i r]; simpl in Hstep.
  - destruct (timer st); try discriminate.
    unfold timerCallback in Hstep. destruct (done _); simplify_eq/=; exact Hkeep.
  - rewrite deliver_cases in Hstep. simpl in Hstep.
    repeat case_match; simplify_eq/=; rewrite finish_placeholderId; exact Hkeep.
  - rewrite onError_cases in Hstep. simpl in Hstep.
    repeat case_match; simplify_eq/=; rewrite finish_placeholderId; exact Hkeep.
  - destruct (main st); simplify_eq/=. exact Hkeep.
  - destruct (main st); try discriminate.
    rewrite catchDispatch_cases in Hstep. simpl in Hstep.
    repeat case_match; simplify_eq/=; rewrite finish_placeholderId; exact Hkeep.
  - destruct (main st); try discriminate. destruct r; simplify_eq/=; exact Hkeep.
  - destruct (pending st !! i) as [k|]; [|discriminate].
    destruct k, r as [[id|]|e]; simplify_eq/=; try exact Hkeep; try (left; reflexivity).
    right. apply elem_of_app. right. apply list_elem_of_singleton. reflexivity.
Qed.

Lemma run_touches_returned (evs : list Event) (st : HState) (ids : list jsstring) :
  placeholderId st = [] \/ placeholderId st ∈ ids ->
  count (touchesOutside (ids ++ returnedIds evs)) (snd (run ctx chatId st evs)) = O.
Proof.
  revert st ids. induction evs as [|ev evs IH]; intros st ids Hpid; simpl run;
    [reflexivity|].
  assert (ids ++ returnedIds [ev] ++ returnedIds evs = ids ++ returnedIds (ev :: evs))
    as Hids.
  { destruct ev as [| | | | | |i [[id|]|e]]; reflexivity. }
  destruct (messageHandlerStep ctx chatId st ev) as [[st1 effs1]|] eqn:Hs.
  - pose proof (messageHandlerStep_effects ctx chatId _ _ _ _ Hs) as Hall.
    apply messageHandlerStep_inv in Hs as (effs0 & Hs & ->).
    pose proof (step_placeholderId _ _ _ _ ids Hs Hpid) as Hpid1.
    specialize (IH st1 (ids ++ returnedIds [ev]) Hpid1).
    rewrite <- app_assoc, Hids in IH.
    destruct (run ctx chatId st1 evs) as [st2 effs2]; simpl in *.
    rewrite count_app, IH, Nat.add_0_r.
    apply (count_touchesOutside_mono ids);
      [intros x Hx; apply elem_of_app; left; exact Hx|].
    apply (count_allowed ctx chatId _ (placeholderId st)); [|exact Hall].
    intros e He. destruct e; simpl in *; try reflexivity;
      destruct He as [-> Htruthy];
      (destruct Hpid as [Hnil|Hin];
       [rewrite Hnil in Htruthy; discriminate
       |rewrite negb_false_iff, bool_decide_eq_true; exact Hin]).
  - apply (count_touchesOutside_mono (ids ++ returnedIds evs)); [|apply IH; exact Hpid].
    rewrite <- Hids. intros x Hx. apply elem_of_app in Hx as [Hx|Hx].
    + apply elem_of_app. left; exact Hx.
    + apply elem_of_app. right. apply elem_of_app. right; exact Hx.
Qed.

(** The timer fires at most once. *)
Lemma run_create_once (evs : list Event) (st : HState) :
  (count isCreate (snd (run ctx chatId st evs)) <= 1)%nat.
Proof.
  revert st. induction evs as [|ev evs IH]; intros st; simpl; [lia|].
  destruct (messageHandlerStep ctx chatId st ev) as [[st1 effs1]|] eqn:Hs; [|auto].
  apply messageHandlerStep_inv in Hs as (effs0 & Hs & ->).
  specialize (IH st1).
  assert (ev = TimerFires \/ ev ≠ TimerFires) as [->|Hev]
    by (destruct ev; [left; reflexivity|right; discriminate..]).
  - simpl in Hs. destruct (timer st) eqn:Ht; try discriminate.
    assert (timer st1 ≠ TimerArmed) as Ht1.
    { unfold timerCallback in Hs. destruct (done _); simplify_eq/=; discriminate. }
    assert (count isCreate effs0 <= 1)%nat as Hone.
    { unfold timerCallback in Hs. destruct (done _); simplify_eq/=; lia. }
    pose proof (run_unarmed_no_create ctx chatId evs st1 Ht1) as Hrest.
    destruct (run ctx chatId st1 evs) as [st2 effs2]; simpl in *.
    rewrite !count_app, Hrest, caught_effects by reflexivity. lia.
  - destruct (run ctx chatId st1 evs) as [st2 effs2]; simpl in *.
    rewrite !count_app, (step_create _ _ _ _ _ _ Hs), caught_effects by auto. lia.
Qed.

End PlaceholderIds.

Section InvocationPlaceholder.

Context {Mention : Type}.
Variable shouldRespondInGroup : jsstring -> list Mention -> option (list jsstring) -> bool.
Variable parseText : jsstring -> option jsstring.

Lemma dispatchReply_timer (ctx : MessageHandlerContext) (rt : Runtime)
  (m : Message Mention) (chatId senderId text : jsstring) :
  match dispatchReply ctx rt m chatId senderId text with
  | Returns effs | Rejects _ effs => (count isSetTimeout effs <= 1)%nat
  | Awaits _ _ effs =>
      count isSetTimeout effs = if (0 <? ctx_thinkingThresholdMs ctx)%Z then 1%nat else O
  end.
Proof.
  unfold dispatchReply.
  destruct rt as [e| |[| |e]]; simpl;
    try rewrite catchDispatch_cases; simpl;
    destruct (0 <? ctx_thinkingThresholdMs ctx)%Z; simpl;
    rewrite ?count_app, ?count_sink by reflexivity; simpl; lia.
Qed.

(** X2. Over any schedule one invocation schedules at most one timer and
    creates at most one placeholder, and it creates none unless it scheduled
    the timer. *)
Theorem one_timer_one_placeholder (account : ResolvedFeishuAccount)
  (hasStatusSink : bool) (rt : Runtime) (seen : gset jsstring) (data : Data Mention)
  (evs : list Event) :
  let effs := effects (messageHandler shouldRespondInGroup parseText account
                         hasStatusSink rt seen data evs) in
  (count isCreate effs <= count isSetTimeout effs)%nat
  /\ (count isSetTimeout effs <= 1)%nat.
Proof.
  simpl. unfold messageHandler. set (ctx := handlerContext account hasStatusSink).
  destruct (handleIncomingMessage_cases shouldRespondInGroup parseText ctx rt seen data)
    as [H|(m & chatId & _ & _ & _ & [H|(t & text & _ & _ & _ & H)])];
    rewrite H; simpl; try lia.
  pose proof (dispatchReply_timer ctx rt m chatId (default [] (sender_open_id data)) text)
    as Htimer.
  pose proof (dispatchReply_count isCreate ctx rt m chatId
                (default [] (sender_open_id data)) text) as Hcreate.
  pose proof (dispatchReply_dispatch ctx rt m chatId
                (default [] (sender_open_id data)) text) as Hshape.
  destruct (dispatchReply ctx rt m chatId (default [] (sender_open_id data)) text)
    as [effs|e effs|c st effs]; simpl.
  - rewrite Hcreate by (reflexivity || discriminate). lia.
  - rewrite !count_app, Hcreate by (reflexivity || discriminate). simpl. lia.
  - destruct Hshape as (-> & -> & _).
    remember (0 <? ctx_thinkingThresholdMs ctx)%Z as armed eqn:Harm in *. clear Harm.
    pose proof (run_create_once ctx chatId evs (initialState armed)) as Honce.
    pose proof (run_count_allowed ctx chatId isSetTimeout evs (initialState armed)) as Hset.
    pose proof (run_unarmed_no_create ctx chatId evs (initialState armed)) as Hnone.
    destruct (run ctx chatId _ evs) as [st' effs']; simpl in *.
    rewrite !count_app, Htimer, Hcreate by (reflexivity || discriminate).
    rewrite Hset.
    + destruct armed; simpl in *; [lia|].
      rewrite Hnone by discriminate. lia.
    + intros pid e He. destruct e; simpl in *; try reflexivity; contradiction.
Qed.

(** X3. Over any schedule the handler updates or deletes only messages whose
    id a settled platform call handed back to it. *)
Theorem only_returned_ids_touched (account : ResolvedFeishuAccount)
  (hasStatusSink : bool) (rt : Runtime) (seen : gset jsstring) (data : Data Mention)
  (evs : list Event) :
  count (touchesOutside (returnedIds evs))
    (effects (messageHandler shouldRespondInGroup parseText account
                hasStatusSink rt seen data evs)) = O.
Proof.
  unfold messageHandler. set (ctx := handlerContext account hasStatusSink).
  destruct (handleIncomingMessage_cases shouldRespondInGroup parseText ctx rt seen data)
    as [H|(m & chatId & _ & _ & _ & [H|(t & text & _ & _ & _ & H)])];
    rewrite H; simpl; try reflexivity.
  pose proof (dispatchReply_count (touchesOutside (returnedIds evs)) ctx rt m chatId
                (default [] (sender_open_id data)) text) as Hstart.
  pose proof (dispatchReply_dispatch ctx rt m chatId
                (default [] (sender_open_id data)) text) as Hshape.
  destruct (dispatchReply ctx rt m chatId (default [] (sender_open_id data)) text)
    as [effs|e effs|c st effs]; simpl.
  - apply Hstart; reflexivity || discriminate.
  - rewrite count_app, Hstart by (reflexivity || discriminate). reflexivity.
  - destruct Hshape as (-> & -> & _).
    pose proof (run_touches_returned ctx chatId evs
                  (initialState (0 <? ctx_thinkingThresholdMs ctx)%Z) []
                  (or_introl eq_refl)) as Hrun.
    destruct (run ctx chatId _ evs) as [st' effs']; simpl in *.
    rewrite count_app, Hstart, Hrun by (reflexivity || discriminate). reflexivity.
Qed.

End InvocationPlaceholder.

(** ** Events that are not answered *)

(** X4. A message that is not of type "text", or has no content, or whose
    content does not parse, or whose text is blank, is dropped without a
    trace: nothing is logged, nothing is sent, the dispatcher is not called
    and the handler fulfils. *)
Theorem unreadable_message_dropped {Mention : Type}
  (shouldRespondInGroup : jsstring -> list Mention -> option (list jsstring) -> bool)
  (parseText : jsstring -> option jsstring)
  (account : ResolvedFeishuAccount) (hasStatusSink : bool) (rt : Runtime)
  (seen : gset jsstring) (data : Data Mention) (m : Message Mention)
  (evs : list Event) :
  message data = Some m ->
  message_type m ≠ Some (u16 "text")
  \/ truthyOpt (content m) = false
  \/ (exists raw, content m = Some raw
        /\ (parseText raw = None \/ exists t, parseText raw = Some t /\ trim t = [])) ->
  let r := messageHandler shouldRespondInGroup parseText account hasStatusSink
             rt seen data evs in
  effects r = [] /\ final r = None /\ promise r = Fulfilled.
Proof.
  intros Hm Hwhy. simpl.
  assert (messageText parseText m = None) as Htext.
  { unfold messageText.
    destruct (content m) as [[|c raw]|] eqn:Hc; try reflexivity.
    destruct Hwhy as [Hty|[Hno|(raw' & Hraw & Hparse)]].
    - rewrite bool_decide_eq_false_2 by exact Hty. reflexivity.
    - discriminate.
    - simplify_eq. case_bool_decide; [|reflexivity].
      destruct Hparse as [->|(t & -> & Ht)]; [reflexivity|].
      simpl. rewrite Ht. reflexivity. }
  unfold messageHandler, handleIncomingMessage. rewrite Hm.
  destruct (chat_id m) as [[|c chatId]|]; try (repeat split; reflexivity).
  destruct (isDuplicate seen (message_id m)) as [[|] seen'];
    try (repeat split; reflexivity).
  rewrite Htext. repeat split; reflexivity.
Qed.

Lemma unreadable_message_dropped_witness :
  message_type <$> message imageMessage = Some (Some (u16 "image"))
  /\ effects (sampleHandler ∅ imageMessage [TimerFires]) = [].
Proof.
  split; [reflexivity|].
  refine (proj1 (unreadable_message_dropped neverAddressed readTextContent
                   (sampleAccount plainConfig) false readyRuntime ∅ imageMessage _
                   [TimerFires] eq_refl (or_introl _))).
  discriminate.
Defined.

(** X5. A message from a chat that is not a group chat never meets the group
    filter: whatever [shouldRespondInGroup] would answer, the handler does
    the same. *)
Theorem direct_message_unfiltered {Mention : Type}
  (filter1 filter2 : jsstring -> list Mention -> option (list jsstring) -> bool)
  (parseText : jsstring -> option jsstring)
  (account : ResolvedFeishuAccount) (hasStatusSink : bool) (rt : Runtime)
  (seen : gset jsstring) (data : Data Mention) (evs : list Event) :
  (forall m, message data = Some m -> chat_type m ≠ Some (u16 "group")) ->
  messageHandler filter1 parseText account hasStatusSink rt seen data evs
  = messageHandler filter2 parseText account hasStatusSink rt seen data evs.
Proof.
  intros Hdirect. unfold messageHandler, handleIncomingMessage.
  destruct (message data) as [m|]; [|reflexivity].
  specialize (Hdirect m eq_refl).
  destruct (chat_id m) as [[|c chatId]|]; try reflexivity.
  destruct (isDuplicate seen (message_id m)) as [[|] seen']; try reflexivity.
  destruct (messageText parseText m) as [t|]; try reflexivity.
  unfold groupFilter. rewrite bool_decide_eq_false_2 by exact Hdirect. reflexivity.
Qed.

Lemma direct_message_unfiltered_witness :
  chat_type <$> message directMessage = Some (Some (u16 "p2p"))
  /\ messageHandler neverAddressed readTextContent (sampleAccount plainConfig) false
       readyRuntime ∅ directMessage [DispatchResolves]
     = messageHandler whenMentioned readTextContent (sampleAccount plainConfig) false
         readyRuntime ∅ directMessage [DispatchResolves].
Proof.
  split; [reflexivity|].
  apply (direct_message_unfiltered neverAddressed whenMentioned readTextContent
           (sampleAccount plainConfig) false readyRuntime ∅ directMessage
           [DispatchResolves]).
  intros m Hm. injection Hm as <-. discriminate.
Defined.

(** X6. When the host runtime cannot be had, lacks the reply dispatcher, or
    fails to load its configuration, the handler stops before the dispatch:
    the dispatcher is not called, no platform call is made, a timer that was
    scheduled is cleared again, no closure survives to receive callbacks,
    and [messageHandler] fulfils. *)
Theorem unusable_runtime_stops {Mention : Type}
  (shouldRespondInGroup : jsstring -> list Mention -> option (list jsstring) -> bool)
  (parseText : jsstring -> option jsstring)
  (account : ResolvedFeishuAccount) (hasStatusSink : bool) (rt : Runtime)
  (seen : gset jsstring) (data : Data Mention) (evs : list Event) :
  match rt with
  | RuntimeWithDispatch NoLoadConfig | RuntimeWithDispatch LoadConfigReturns => False
  | _ => True
  end ->
  let r := messageHandler shouldRespondInGroup parseText account hasStatusSink
             rt seen data evs in
  final r = None
  /\ promise r = Fulfilled
  /\ count isDispatch (effects r) = O
  /\ count isPlatformCall (effects r) = O
  /\ count isSetTimeout (effects r) = count isClearTimeout (effects r).
Proof.
  intros Hrt. simpl. unfold messageHandler.
  set (ctx := handlerContext account hasStatusSink). clearbody ctx.
  destruct (handleIncomingMessage_cases shouldRespondInGroup parseText ctx rt seen data)
    as [H|(m & chatId & _ & _ & _ & [H|(t & text & _ & _ & _ & H)])];
    rewrite H; simpl; try (repeat split; reflexivity).
  unfold dispatchReply.
  destruct rt as [e| |[| |e]]; try contradiction; simpl;
    try rewrite catchDispatch_cases; simpl;
    destruct (0 <? ctx_thinkingThresholdMs ctx)%Z; simpl;
    rewrite ?count_app, ?count_sink by reflexivity; simpl; repeat split; reflexivity.
Qed.

Lemma unusable_runtime_stops_witness :
  let r := messageHandler neverAddressed readTextContent (sampleAccount plainConfig) false
             (RuntimeWithDispatch (LoadConfigThrows (ErrorObject (u16 "bad config"))))
             ∅ directMessage [TimerFires] in
  count isSetTimeout (effects r) = 1%nat
  /\ count isClearTimeout (effects r) = 1%nat
  /\ count isDispatch (effects r) = O.
Proof.
  pose proof (unusable_runtime_stops neverAddressed readTextContent
                (sampleAccount plainConfig) false
                (RuntimeWithDispatch (LoadConfigThrows (ErrorObject (u16 "bad config"))))
                ∅ directMessage [TimerFires] I) as (_ & _ & Hd & _ & Ht).
  split; [reflexivity|]. split; [rewrite <- Ht; reflexivity|exact Hd].
Defined.

(** ** What the dispatcher is given *)

Lemma trimStart_idem (s : jsstring) : trimStart (trimStart s) = trimStart s.
Proof.
  induction s as [|c s IH]; simpl; [reflexivity|].
  destruct (isWhiteSpace c) eqn:Hc; [exact IH|]. simpl. rewrite Hc. reflexivity.
Qed.

Lemma trimStart_keep (l r : jsstring) (c : N) :
  isWhiteSpace c = false -> trimStart (l ++ c :: r) = trimStart l ++ c :: r.
Proof.
  intros Hc. induction l as [|a l IH]; simpl; [rewrite Hc; reflexivity|].
  destruct (isWhiteSpace a); [exact IH|reflexivity].
Qed.

Lemma trimStart_head (s : jsstring) :
  match trimStart s with
  | [] => True
  | c :: _ => isWhiteSpace c = false
  end.
Proof.
  induction s as [|c s IH]; simpl; [exact I|].
  destruct (isWhiteSpace c) eqn:Hc; [exact IH|exact Hc].
Qed.

(** Trimming leaves nothing to trim. *)
Lemma trim_idem (s : jsstring) : trim (trim s) = trim s.
Proof.
  unfold trim, trimEnd.
  pose proof (trimStart_head s) as Hhead.
  destruct (trimStart s) as [|c t]; [reflexivity|].
  set (u := trimStart (rev (c :: t))).
  assert (u = trimStart (rev t) ++ [c]) as Hu.
  { subst u. simpl rev. apply trimStart_keep. exact Hhead. }
  assert (trimStart (rev u) = rev u) as Hru.
  { rewrite Hu, rev_app_distr. simpl. rewrite Hhead. reflexivity. }
  rewrite Hru, rev_involutive. subst u. rewrite trimStart_idem. reflexivity.
Qed.

Lemma count_elem (f : Effect -> bool) (e : Effect) (effs : list Effect) :
  e ∈ effs -> f e = true -> count f effs ≠ O.
Proof.
  induction 1 as [e effs|e e' effs _ IH]; intros Hf; simpl.
  - rewrite Hf. discriminate.
  - destruct (f e'); [discriminate|apply IH, Hf].
Qed.

Section DispatchedContext.

Context {Mention : Type}.
Variable shouldRespondInGroup : jsstring -> list Mention -> option (list jsstring) -> bool.
Variable parseText : jsstring -> option jsstring.

Lemma messageText_trimmed (m : Message Mention) (t : jsstring) :
  messageText parseText m = Some t -> truthy t = true /\ trim t = t.
Proof.
  unfold messageText. intros H.
  destruct (content m) as [[|c raw]|]; try discriminate.
  case_bool_decide; [|discriminate].
  destruct (parseText (c :: raw)) as [t0|]; [|discriminate].
  simpl in H. destruct (truthy (trim t0)) eqn:Ht; [|discriminate].
  injection H as <-. split; [exact Ht|apply trim_idem].
Qed.

Lemma groupFilter_trimmed (ctx : MessageHandlerContext) (m : Message Mention)
  (t text : jsstring) :
  groupFilter shouldRespondInGroup ctx m t = Some text ->
  truthy t = true -> trim t = t -> truthy text = true /\ trim text = text.
Proof.
  unfold groupFilter, groupText. intros H Ht Htrim.
  case_bool_decide.
  - destruct (truthy (trim (stripMentions t))) eqn:Hg; simpl in H; [|discriminate].
    destruct (shouldRespondInGroup _ _ _); [|discriminate].
    injection H as <-. split; [exact Hg|apply trim_idem].
  - injection H as <-. split; assumption.
Qed.

Lemma dispatchReply_dispatched (ctx : MessageHandlerContext) (rt : Runtime)
  (m : Message Mention) (chatId senderId text : jsstring) (ictx : InboundCtx) :
  match dispatchReply ctx rt m chatId senderId text with
  | Returns effs | Rejects _ effs => Dispatch ictx ∉ effs
  | Awaits _ _ effs =>
      Dispatch ictx ∈ effs -> ictx = inboundCtx ctx m chatId senderId text
  end.
Proof.
  unfold dispatchReply, sink.
  destruct rt as [e| |[| |e]]; simpl;
    try rewrite catchDispatch_cases; simpl;
    destruct (ctx_hasStatusSink ctx), (0 <? ctx_thinkingThresholdMs ctx)%Z; simpl;
    intros Hin;
    repeat (apply elem_of_cons in Hin as [Hin|Hin]; [try discriminate|]);
    try (apply elem_of_nil in Hin; contradiction);
    injection Hin as ->; reflexivity.
Qed.

(** X7. Whenever the dispatcher is called, the inbound context it gets has a
    body that is not empty and carries no surrounding whitespace, the same
    text as raw and command body, the inbound chat (never empty) as
    destination and conversation label, the sender's open id (empty if
    unknown) as origin, and a session key made of the sender for a direct
    chat and of the chat otherwise. *)
Theorem dispatched_context (account : ResolvedFeishuAccount)
  (hasStatusSink : bool) (rt : Runtime) (seen : gset jsstring) (data : Data Mention)
  (evs : list Event) (ictx : InboundCtx) :
  Dispatch ictx ∈ effects (messageHandler shouldRespondInGroup parseText account
                             hasStatusSink rt seen data evs) ->
  exists m chat,
    message data = Some m /\ chat_id m = Some chat /\ truthy chat = true
    /\ truthy (Body ictx) = true /\ trim (Body ictx) = Body ictx
    /\ RawBody ictx = Body ictx /\ CommandBody ictx = Body ictx
    /\ To ictx = chat /\ ConversationLabel ictx = chat /\ OriginatingTo ictx = chat
    /\ From ictx = default [] (sender_open_id data) /\ SenderId ictx = From ictx
    /\ MessageSid ictx = message_id m
    /\ AccountId ictx = accountId account
    /\ SessionKey ictx
       = u16 "feishu:" ++ (if bool_decide (chat_type m = Some (u16 "p2p"))
                           then From ictx else chat)
    /\ ChatType ictx
       = (if bool_decide (chat_type m = Some (u16 "p2p"))
          then u16 "direct" else u16 "group").
Proof.
  unfold messageHandler. set (ctx := handlerContext account hasStatusSink).
  destruct (handleIncomingMessage_cases shouldRespondInGroup parseText ctx rt seen data)
    as [H|(m & chatId & Hm & Hchat & Htruthy & [H|(t & text & _ & Ht & Hg & H)])];
    rewrite H; simpl; try (intros Hin; apply elem_of_nil in Hin; contradiction).
  intros Hin.
  destruct (messageText_trimmed m t Ht) as [Ht1 Ht2].
  destruct (groupFilter_trimmed ctx m t text Hg Ht1 Ht2) as [Hb1 Hb2].
  assert (ictx = inboundCtx ctx m chatId (default [] (sender_open_id data)) text) as ->.
  { pose proof (dispatchReply_dispatched ctx rt m chatId
                  (default [] (sender_open_id data)) text ictx) as Hstart.
    pose proof (dispatchReply_dispatch ctx rt m chatId
                  (default [] (sender_open_id data)) text) as Hshape.
    destruct (dispatchReply ctx rt m chatId (default [] (sender_open_id data)) text)
      as [effs|e effs|c st effs]; simpl in Hin.
    - contradiction.
    - apply elem_of_app in Hin as [Hin|Hin]; [contradiction|].
      apply list_elem_of_singleton in Hin. discriminate.
    - destruct Hshape as (-> & _ & _).
      pose proof (run_dispatch ctx chatId evs st) as Hrun.
      destruct (run ctx chatId st evs) as [st' effs']; simpl in *.
      apply elem_of_app in Hin as [Hin|Hin]; [apply Hstart, Hin|].
      exfalso. exact (count_elem isDispatch _ _ Hin eq_refl Hrun). }
  exists m, chatId. simpl. repeat split; assumption.
Qed.

End DispatchedContext.

Lemma dispatched_context_witness :
  let ictx :=
    {| Body := u16 "hello"; RawBody := u16 "hello"; CommandBody := u16 "hello";
       From := u16 "ou_1"; To := u16 "oc_1"; SessionKey := u16 "feishu:ou_1";
       AccountId := u16 "main"; MessageSid := Some (u16 "om_1");
       ChatType := u16 "direct"; ConversationLabel := u16 "oc_1";
       SenderId := u16 "ou_1"; OriginatingTo := u16 "oc_1" |} in
  Dispatch ictx ∈ effects (sampleHandler ∅ directMessage [DispatchResolves])
  /\ exists (m : Message unit) (chat : jsstring),
       message directMessage = Some m /\ To ictx = chat /\ trim (Body ictx) = Body ictx.
Proof.
  simpl.
  match goal with
  | |- ?P /\ _ => assert P as Hin by (vm_compute; repeat constructor)
  end.
  split; [exact Hin|].
  destruct (dispatched_context neverAddressed readTextContent (sampleAccount plainConfig)
              false readyRuntime ∅ directMessage [DispatchResolves] _ Hin)
    as (m & chat & Hm & _ & _ & _ & Htrim & _ & _ & Hto & _).
  exists m, chat. split; [exact Hm|]. split; [exact Hto|exact Htrim].
Defined.

(** ** Delivering against a recorded placeholder *)

Section Deliveries.

Variable ctx : MessageHandlerContext.
Variable chatId : jsstring.

Lemma caught_same (m : Main) : caught ctx m m = [].
Proof. destruct m; reflexivity. Qed.

Lemma lookup_awaited (ks : list Cont) (k : Cont) :
  (ks ++ [k]) !! length ks = Some k.
Proof. apply list_lookup_middle. reflexivity. Qed.

Lemma delete_awaited (ks : list Cont) (k : Cont) :
  delete (length ks) (ks ++ [k]) = ks.
Proof. rewrite delete_middle. apply app_nil_r. Qed.

(** X8. A media reply that finds a placeholder deletes it first and uploads
    the media only once the delete has gone through, forgetting the
    placeholder; if the delete is rejected the failure is logged and the
    media is not sent at all. *)
Theorem media_reply_replaces_placeholder (st : HState) (p : Payload)
  (e : JsError) (x : option jsstring) :
  truthy (placeholderId st) = true -> truthyOpt (mediaUrlOf p) = true ->
  let pid := placeholderId st in
  let k := length (pending st) in
  let started :=
    snd (finish st) ++ sink (ctx_hasStatusSink ctx) PatchOutbound ++ [DeleteMessage pid] in
  let sent := run ctx chatId st [Deliver p; Settles k (Resolves x)] in
  let lost := run ctx chatId st [Deliver p; Settles k (Throws e)] in
  snd sent = started ++ [SendMediaMessage chatId (default [] (mediaUrlOf p)) (replyTextOf p)]
  /\ placeholderId (fst sent) = []
  /\ snd lost = started ++ [failedToSend ctx e]
  /\ placeholderId (fst lost) = pid
  /\ pending (fst lost) = pending st.
Proof.
  intros Hpid Hmedia. simpl. unfold messageHandlerStep. simpl.
  rewrite deliver_cases. simpl. rewrite Hpid, Hmedia, andb_false_r. simpl.
  rewrite finish_main, caught_same, finish_pending.
  rewrite lookup_awaited, delete_awaited. simpl.
  rewrite finish_main, ?caught_same, finish_placeholderId.
  rewrite ?app_nil_r, <- ?app_assoc. simpl. repeat split; reflexivity.
Qed.

(** X9. A payload with a media URL is never delivered as text: whatever its
    text says, "NO_REPLY" and the empty text included, [deliver] goes for the
    media, with the text as its caption. *)
Theorem media_wins_over_text (st : HState) (p : Payload) :
  truthyOpt (mediaUrlOf p) = true ->
  let pid := placeholderId st in
  snd (deliver ctx chatId st p)
  = snd (finish st) ++ sink (ctx_hasStatusSink ctx) PatchOutbound
    ++ [if truthy pid then DeleteMessage pid
        else SendMediaMessage chatId (default [] (mediaUrlOf p)) (replyTextOf p)]
  /\ count isTextDelivery (snd (deliver ctx chatId st p)) = O.
Proof.
  intros Hmedia. simpl. rewrite deliver_cases. simpl.
  rewrite Hmedia, andb_false_r.
  destruct (truthy (placeholderId st)); simpl; rewrite <- ?app_assoc;
    (split; [reflexivity|count_effects]).
Qed.

(** X10. An empty [mediaUrl] hides [mediaUrls]: a payload whose [mediaUrl] is
    the empty string is handled as a text reply, and nothing is uploaded,
    whatever [mediaUrls] lists. *)
Theorem empty_mediaUrl_hides_mediaUrls (st : HState) (text body : option jsstring)
  (urls : option (list jsstring)) :
  let p := PayloadObject text body (Some []) urls in
  let effs := snd (deliver ctx chatId st p) in
  count isMediaSend effs = O
  /\ count isTextDelivery effs
     = (if isNoReply (trim (replyTextOf p)) then O else 1%nat)
  /\ Forall (fun k => match k with
                      | AfterMediaDelete _ _ | AfterMediaSend => False
                      | _ => True
                      end)
       (drop (length (pending st)) (pending (fst (deliver ctx chatId st p)))).
Proof.
  simpl. rewrite deliver_cases. simpl. rewrite andb_true_r.
  destruct (isNoReply _), (truthy (placeholderId st)); simpl;
    rewrite ?finish_pending, ?drop_app_length, ?drop_all; repeat split;
    try count_effects; repeat constructor.
Qed.

(** X11. Blocks of one reply against a placeholder: the first text block is
    written into the placeholder.  If that update has gone through when the
    next block arrives, the placeholder is forgotten and the block is sent as
    a new message; if the update is still under way, the next block
    overwrites the same placeholder. *)
Theorem text_blocks_against_placeholder (st : HState) (p1 p2 : Payload)
  (x : option jsstring) :
  truthy (placeholderId st) = true ->
  isNoReply (trim (replyTextOf p1)) = false -> truthyOpt (mediaUrlOf p1) = false ->
  isNoReply (trim (replyTextOf p2)) = false -> truthyOpt (mediaUrlOf p2) = false ->
  let pid := placeholderId st in
  let k := length (pending st) in
  let out := sink (ctx_hasStatusSink ctx) PatchOutbound in
  let first := snd (finish st) ++ out ++ [UpdateMessage pid (replyTextOf p1)] in
  let again := snd (finish (fst (finish st))) ++ out in
  snd (run ctx chatId st [Deliver p1; Settles k (Resolves x); Deliver p2])
  = first ++ again ++ [SendTextMessage chatId (replyTextOf p2)]
  /\ snd (run ctx chatId st [Deliver p1; Deliver p2])
     = first ++ again ++ [UpdateMessage pid (replyTextOf p2)].
Proof.
  intros Hpid Hn1 Hm1 Hn2 Hm2.
  destruct st as [pid d t ks m]. simpl in *.
  unfold messageHandlerStep. simpl. rewrite !deliver_cases. simpl.
  rewrite Hn1, Hm1, Hpid. simpl.
  assert ((pending (fst (finish
             {| placeholderId := pid; done := d; timer := t; pending := ks; main := m |}))
           ++ [AfterUpdate]) !! length ks = Some AfterUpdate) as Hlook.
  { rewrite finish_pending. apply lookup_awaited. }
  rewrite Hlook. simpl. rewrite !deliver_cases. simpl.
  rewrite Hn2, Hm2, finish_pending, delete_awaited. simpl.
  destruct t, m; simpl; rewrite Hpid; simpl; rewrite <- ?app_assoc; simpl;
    split; reflexivity.
Qed.

End Deliveries.

Lemma media_reply_replaces_placeholder_witness :
  let ctx := handlerContext (sampleAccount plainConfig) false in
  let p := PayloadObject (Some (u16 "chart")) None (Some (u16 "https://x/y.png")) None in
  truthy (placeholderId placeholderRecorded) = true /\ truthyOpt (mediaUrlOf p) = true
  /\ snd (run ctx (u16 "oc_1") placeholderRecorded
            [Deliver p; Settles 0 (Throws (ErrorObject (u16 "gone")))])
     = [ClearTimeout; DeleteMessage (u16 "om_ph");
        LogError (u16 "[feishu:main] Failed to send reply: gone")].
Proof.
  split; [reflexivity|]. split; [reflexivity|].
  exact (proj1 (proj2 (proj2
    (media_reply_replaces_placeholder (handlerContext (sampleAccount plainConfig) false)
       (u16 "oc_1") placeholderRecorded
       (PayloadObject (Some (u16 "chart")) None (Some (u16 "https://x/y.png")) None)
       (ErrorObject (u16 "gone")) None eq_refl eq_refl)))).
Defined.

Lemma media_wins_over_text_witness :
  let ctx := handlerContext (sampleAccount plainConfig) false in
  let p := PayloadObject (Some (u16 "NO_REPLY")) None None (Some [u16 "https://x/y.png"]) in
  truthyOpt (mediaUrlOf p) = true
  /\ snd (deliver ctx (u16 "oc_1") (initialState false) p)
     = [SendMediaMessage (u16 "oc_1") (u16 "https://x/y.png") (u16 "NO_REPLY")].
Proof.
  split; [reflexivity|].
  exact (proj1
    (media_wins_over_text (handlerContext (sampleAccount plainConfig) false)
       (u16 "oc_1") (initialState false)
       (PayloadObject (Some (u16 "NO_REPLY")) None None (Some [u16 "https://x/y.png"]))
       eq_refl)).
Defined.

Lemma text_blocks_against_placeholder_witness :
  let ctx := handlerContext (sampleAccount plainConfig) false in
  let p1 := PayloadString (u16 "part one") in
  let p2 := PayloadString (u16 "part two") in
  truthy (placeholderId placeholderRecorded) = true
  /\ isNoReply (trim (replyTextOf p1)) = false /\ isNoReply (trim (replyTextOf p2)) = false
  /\ snd (run ctx (u16 "oc_1") placeholderRecorded [Deliver p1; Deliver p2])
     = [ClearTimeout; UpdateMessage (u16 "om_ph") (u16 "part one");
        ClearTimeout; UpdateMessage (u16 "om_ph") (u16 "part two")].
Proof.
  split; [reflexivity|]. split; [reflexivity|]. split; [reflexivity|].
  exact (proj2
    (text_blocks_against_placeholder (handlerContext (sampleAccount plainConfig) false)
       (u16 "oc_1") placeholderRecorded
       (PayloadString (u16 "part one")) (PayloadString (u16 "part two")) None
       eq_refl eq_refl eq_refl eq_refl eq_refl)).
Defined.

(** ** Group messages that only mention somebody *)

Lemma spanLength_all (f : N -> bool) (s : jsstring) :
  forallb f s = true -> spanLength f s = length s.
Proof.
  induction s as [|c s IH]; simpl; [reflexivity|].
  intros [Hc Hs]%andb_true_iff. rewrite Hc, (IH Hs). reflexivity.
Qed.

Lemma stripMentionsFrom_all (s : jsstring) (k : nat) :
  (length s <= k)%nat -> stripMentionsFrom k s = [].
Proof.
  revert k. induction s as [|c s IH]; intros k Hk; simpl; [reflexivity|].
  destruct k as [|k]; simpl in Hk; [lia|]. apply IH. lia.
Qed.

(** A text that is one mention placeholder is stripped to nothing. *)
Lemma stripMentions_placeholder (digits : jsstring) :
  digits ≠ [] -> forallb isDigit digits = true ->
  stripMentions (mentionTag ++ digits) = [].
Proof.
  intros Hne Hdigits. unfold stripMentions.
  change (mentionTag ++ digits)
    with (0x40 :: 0x5F :: 0x75 :: 0x73 :: 0x65 :: 0x72 :: 0x5F :: digits).
  cbn [stripMentionsFrom].
  assert (mentionMatch (0x40 :: 0x5F :: 0x75 :: 0x73 :: 0x65 :: 0x72 :: 0x5F :: digits)
          = Some (S (6 + length digits))) as ->.
  { unfold mentionMatch. cbn [u16 startsWith N_of_ascii]. simpl.
    destruct digits as [|c ds]; [contradiction|].
    change (drop 0 (c :: ds)) with (c :: ds).
    rewrite (spanLength_all _ _ Hdigits).
    rewrite drop_all. simpl. f_equal. lia. }
  apply stripMentionsFrom_all. simpl. lia.
Qed.

(** X12. A group message whose text is nothing but a mention placeholder
    ([@_user_] and digits) is dropped before the group filter is even asked:
    whatever [shouldRespondInGroup] would answer, nothing is logged, nothing
    is sent and the dispatcher is not called. *)
Theorem mention_only_message_dropped {Mention : Type}
  (shouldRespondInGroup : jsstring -> list Mention -> option (list jsstring) -> bool)
  (parseText : jsstring -> option jsstring)
  (account : ResolvedFeishuAccount) (hasStatusSink : bool) (rt : Runtime)
  (seen : gset jsstring) (data : Data Mention) (m : Message Mention)
  (digits : jsstring) (evs : list Event) :
  message data = Some m -> chat_type m = Some (u16 "group") ->
  messageText parseText m = Some (mentionTag ++ digits) ->
  digits ≠ [] -> forallb isDigit digits = true ->
  let r := messageHandler shouldRespondInGroup parseText account hasStatusSink
             rt seen data evs in
  effects r = [] /\ final r = None /\ promise r = Fulfilled.
Proof.
  intros Hm Hgroup Htext Hne Hdigits. simpl.
  unfold messageHandler, handleIncomingMessage. rewrite Hm.
  destruct (chat_id m) as [[|c chatId]|]; try (repeat split; reflexivity).
  destruct (isDuplicate seen (message_id m)) as [[|] seen'];
    try (repeat split; reflexivity).
  rewrite Htext. unfold groupFilter, groupText.
  rewrite bool_decide_eq_true_2 by exact Hgroup.
  rewrite (stripMentions_placeholder digits Hne Hdigits). simpl.
  repeat split; reflexivity.
Qed.

Lemma mention_only_message_dropped_witness :
  chat_type <$> message mentionOnlyMessage = Some (Some (u16 "group"))
  /\ forallb isDigit (u16 "1") = true
  /\ effects (messageHandler alwaysAddressed readTextContent (sampleAccount plainConfig)
                false readyRuntime ∅ mentionOnlyMessage [DispatchResolves]) = [].
Proof.
  split; [reflexivity|]. split; [reflexivity|].
  refine (proj1
    (mention_only_message_dropped alwaysAddressed readTextContent
       (sampleAccount plainConfig) false readyRuntime ∅ mentionOnlyMessage _ (u16 "1")
       [DispatchResolves] eq_refl eq_refl eq_refl _ eq_refl)).
  discriminate.
Defined.

(** ** Starting and stopping *)

(** X13. The REST client is created with the account's credentials and with
    the SDK domain the shared resolver gives for the configured domain; in
    WebSocket mode the socket client gets the same credentials and domain.
    When the start returns, the [stop] it hands back logs the stop, closes
    the HTTP server exactly when the mode is webhook, and tells the status
    sink, if there is one, exactly once, and does nothing else; the start
    throws, and hands back no [stop], exactly in webhook mode with a port
    outside 0 to 65535. *)
Theorem provider_start_stop (account : ResolvedFeishuAccount) (hasStatusSink : bool) :
  let webhook := bool_decide (connectionMode (config account) = Some (u16 "webhook")) in
  let valid := Provider.validPort (default 3000%Z (webhookPort (config account))) in
  let sdkDomain := LarkDomain.resolveLarkDomain (domain (config account)) in
  let result := fst (Provider.startFeishuProvider account hasStatusSink) in
  let effs := snd (Provider.startFeishuProvider account hasStatusSink) in
  effs !! 1%nat = Some (NewClient (appId account) (appSecret account) sdkDomain)
  /\ (if webhook then count isWSEffect effs = O
      else effs !! 3%nat
           = Some (NewWSClient (appId account) (appSecret account) sdkDomain))
  /\ match result with
     | Provider.Stops started =>
         (webhook && negb valid = false)
         /\ Provider.stop started account hasStatusSink
            = LogInfo (tagged account
                         (if webhook then u16 "Stopping Webhook server"
                          else u16 "Stopping WebSocket provider"))
              :: (if webhook then [ServerClose] else [])
              ++ (if hasStatusSink then [Status PatchStopped] else [])
     | Provider.ListenThrows => webhook && negb valid = true
     end.
Proof.
  unfold Provider.startFeishuProvider, Provider.startWebhookProvider, Provider.stop,
    Provider.resolveLarkDomain, LarkDomain.resolveLarkDomain.
  destruct (connectionMode (config account)) as [mode|],
           (domain (config account)) as [dom|], hasStatusSink; simpl;
    repeat case_bool_decide; simplify_eq; simpl;
    try destruct (Provider.validPort _); simpl; repeat split; reflexivity.
Qed.


(** ** A placeholder that was deleted but not forgotten *)

(** X14. The empty-reply path deletes the placeholder and keeps its id: a
    text block that is delivered afterwards is written to the deleted
    message with [updateMessage] and is not sent as a new message. *)
Theorem text_after_empty_block (ctx : MessageHandlerContext) (chatId : jsstring)
  (st : HState) (p1 p2 : Payload) (r : ApiResult) :
  truthy (placeholderId st) = true ->
  isNoReply (trim (replyTextOf p1)) = true -> truthyOpt (mediaUrlOf p1) = false ->
  isNoReply (trim (replyTextOf p2)) = false -> truthyOpt (mediaUrlOf p2) = false ->
  let pid := placeholderId st in
  let ran := run ctx chatId st [Deliver p1; Settles (length (pending st)) r; Deliver p2] in
  snd ran
  = snd (finish st) ++ [DeleteMessage pid]
    ++ snd (finish (fst (finish st))) ++ sink (ctx_hasStatusSink ctx) PatchOutbound
    ++ [UpdateMessage pid (replyTextOf p2)]
  /\ count isSend (snd ran) = 1%nat
  /\ placeholderId (fst ran) = pid.
Proof.
  intros Hpid Hn1 Hm1 Hn2 Hm2.
  destruct st as [pid d t ks m]. simpl in *.
  unfold messageHandlerStep. simpl. rewrite !deliver_cases. simpl.
  rewrite Hn1, Hm1, Hpid. simpl.
  assert ((pending (fst (finish
             {| placeholderId := pid; done := d; timer := t; pending := ks; main := m |}))
           ++ [AfterSkipDelete]) !! length ks = Some AfterSkipDelete) as Hlook.
  { rewrite finish_pending. apply lookup_awaited. }
  rewrite Hlook. destruct r; simpl; rewrite !deliver_cases; simpl;
    rewrite Hn2, Hm2, finish_pending, delete_awaited; simpl;
    destruct t, m, (ctx_hasStatusSink ctx); simpl; rewrite Hpid; simpl;
    repeat split; reflexivity.
Qed.

Lemma text_after_empty_block_witness :
  let ctx := handlerContext (sampleAccount plainConfig) false in
  let p1 := PayloadString (u16 "NO_REPLY") in
  let p2 := PayloadString (u16 "hi") in
  truthy (placeholderId placeholderRecorded) = true
  /\ isNoReply (trim (replyTextOf p1)) = true /\ isNoReply (trim (replyTextOf p2)) = false
  /\ snd (run ctx (u16 "oc_1") placeholderRecorded
            [Deliver p1; Settles 0 (Resolves None); Deliver p2])
     = [ClearTimeout; DeleteMessage (u16 "om_ph");
        ClearTimeout; UpdateMessage (u16 "om_ph") (u16 "hi")].
Proof.
  split; [reflexivity|]. split; [reflexivity|]. split; [reflexivity|].
  exact (proj1
    (text_after_empty_block (handlerContext (sampleAccount plainConfig) false)
       (u16 "oc_1") placeholderRecorded
       (PayloadString (u16 "NO_REPLY")) (PayloadString (u16 "hi")) (Resolves None)
       eq_refl eq_refl eq_refl eq_refl eq_refl)).
Defined.

(** ** The delay of the timer *)

Section TimerDelay.

Context {Mention : Type}.
Variable shouldRespondInGroup : jsstring -> list Mention -> option (list jsstring) -> bool.
Variable parseText : jsstring -> option jsstring.

Lemma dispatchReply_delay (ctx : MessageHandlerContext) (rt : Runtime)
  (m : Message Mention) (chatId senderId text : jsstring) (z : Z) :
  match dispatchReply ctx rt m chatId senderId text with
  | Returns effs | Rejects _ effs | Awaits _ _ effs =>
      SetTimeout z ∈ effs -> z = ctx_thinkingThresholdMs ctx /\ (0 < z)%Z
  end.
Proof.
  unfold dispatchReply, sink.
  destruct rt as [e| |[| |e]]; simpl;
    try rewrite catchDispatch_cases; simpl;
    destruct (ctx_hasStatusSink ctx), (0 <? ctx_thinkingThresholdMs ctx)%Z eqn:Hz; simpl;
    intros Hin;
    repeat (apply elem_of_cons in Hin as [Hin|Hin]; [try discriminate|]);
    try (apply elem_of_nil in Hin; contradiction);
    injection Hin as ->; (split; [reflexivity|apply Z.ltb_lt; exact Hz]).
Qed.

(** X15. A timer is only ever scheduled with a positive delay, which is the
    account's [thinkingThresholdMs], or 2500 ms when the account sets none. *)
Theorem timer_delay (account : ResolvedFeishuAccount)
  (hasStatusSink : bool) (rt : Runtime) (seen : gset jsstring) (data : Data Mention)
  (evs : list Event) (z : Z) :
  SetTimeout z ∈ effects (messageHandler shouldRespondInGroup parseText account
                            hasStatusSink rt seen data evs) ->
  z = default 2500%Z (thinkingThresholdMs (config account)) /\ (0 < z)%Z.
Proof.
  unfold messageHandler. set (ctx := handlerContext account hasStatusSink).
  assert (ctx_thinkingThresholdMs ctx
          = default 2500%Z (thinkingThresholdMs (config account))) as Hthr by reflexivity.
  clearbody ctx. rewrite <- Hthr. clear Hthr.
  destruct (handleIncomingMessage_cases shouldRespondInGroup parseText ctx rt seen data)
    as [H|(m & chatId & _ & _ & _ & [H|(t & text & _ & _ & _ & H)])];
    rewrite H; simpl; try (intros Hin; apply elem_of_nil in Hin; contradiction).
  pose proof (dispatchReply_delay ctx rt m chatId
                (default [] (sender_open_id data)) text z) as Hstart.
  pose proof (dispatchReply_dispatch ctx rt m chatId
                (default [] (sender_open_id data)) text) as Hshape.
  destruct (dispatchReply ctx rt m chatId (default [] (sender_open_id data)) text)
    as [effs|e effs|c st effs]; simpl; intros Hin.
  - apply Hstart, Hin.
  - apply elem_of_app in Hin as [Hin|Hin]; [apply Hstart, Hin|].
    apply list_elem_of_singleton in Hin. discriminate.
  - destruct Hshape as (-> & _ & _).
    assert (count isSetTimeout (snd (run ctx chatId st evs)) = O) as Hrun.
    { apply run_count_allowed. intros pid e He.
      destruct e; simpl in *; try reflexivity; contradiction. }
    destruct (run ctx chatId st evs) as [st' effs']; simpl in *.
    apply elem_of_app in Hin as [Hin|Hin]; [apply Hstart, Hin|].
    exfalso. exact (count_elem isSetTimeout _ _ Hin eq_refl Hrun).
Qed.

End TimerDelay.

Lemma timer_delay_witness :
  SetTimeout 2500 ∈ effects (sampleHandler ∅ directMessage [TimerFires])
  /\ 2500%Z = default 2500%Z (thinkingThresholdMs plainConfig).
Proof.
  match goal with
  | |- ?P /\ _ => assert P as Hin by (vm_compute; repeat constructor)
  end.
  split; [exact Hin|].
  exact (proj1 (timer_delay neverAddressed readTextContent (sampleAccount plainConfig)
                  false readyRuntime ∅ directMessage [TimerFires] 2500%Z Hin)).
Defined.
